(** * Vidstack player: load controller, DASH library loader, volume slider,
      slider store and ARIA menu

    A shallow embedding of the TypeScript/JavaScript sources

    - [packages/vidstack/src/core/state/media-load-controller.ts]
    - [packages/vidstack/src/providers/dash/lib-loader.ts]
    - the volume slider element ([VolumeSliderElement]) and [createSliderStore]
    - [apps/new-site/src/aria/menu.ts]

    Browser state (pending callbacks, DOM attributes, focus) is threaded
    explicitly; asynchronous code is modelled by the queue of callbacks it
    leaves behind and by the events that later run them.  JavaScript
    numbers are binary64 floats.  Helpers and components that the sources
    only import are marked "Modelled from the spec". *)

From Stdlib Require Import ZArith List Ascii Floats Uint63.
From stdpp Require Import base decidable option list strings gmap pretty.
Import ListNotations.

Local Open Scope string_scope.
Local Open Scope list_scope.

(* ===================================================================== *)
(** * 1. MediaLoadController                                              *)
(* ===================================================================== *)

Module LoadController.

(** DOM elements are identified by a number. *)
Definition Element := nat.

(** What the controller and the browser do that the outside can see. *)
Inductive Action :=
| CallbackInvoked        (* this._callback() ran *)
| ObserverDisconnected.  (* observer.disconnect() ran *)

#[global] Instance Action_eq_dec : EqDecision Action.
Proof. solve_decision. Defined.

(** The [IntersectionObserver] created by [onAttach]. *)
Record Observer := {
  target : Element;     (* observer.observe(el) *)
  connected : bool      (* false once disconnect() was called *)
}.

(** The part of the browser [onAttach] talks to.  The only function the
    controller ever schedules is [this._callback], so a queue is the number
    of times it was registered. *)
Record Browser := {
  animationFrames : nat;        (* requestAnimationFrame(this._callback) *)
  pendingImports : nat;         (* await import('maverick.js/std') in flight;
                                   the continuation is waitIdlePeriod(this._callback) *)
  idleCallbacks : nat;          (* waitIdlePeriod(this._callback) *)
  observer : option Observer;
  log : list Action             (* oldest first *)
}.

Definition fresh : Browser :=
  {| animationFrames := 0; pendingImports := 0; idleCallbacks := 0;
     observer := None; log := [] |}.

(** What [onAttach] hands back (through the promise of an [async]
    function): for ['visible'] the bound [observer.disconnect]. *)
Inductive Disposer := DisconnectObserver.

(** [onAttach(el)], with [__SERVER__] and [this.$props.load()] as arguments.
    The function returns at its first [await]; what comes after it is left in
    [pendingImports]. *)
Definition onAttach (SERVER : bool) (load : string) (el : Element)
    (b : Browser) : Browser * option Disposer :=
  if SERVER then (b, None)
  else if String.eqb load "eager" then
    ({| animationFrames := S (animationFrames b);
        pendingImports := pendingImports b;
        idleCallbacks := idleCallbacks b;
        observer := observer b; log := log b |}, None)
  else if String.eqb load "idle" then
    ({| animationFrames := animationFrames b;
        pendingImports := S (pendingImports b);
        idleCallbacks := idleCallbacks b;
        observer := observer b; log := log b |}, None)
  else if String.eqb load "visible" then
    ({| animationFrames := animationFrames b;
        pendingImports := pendingImports b;
        idleCallbacks := idleCallbacks b;
        observer := Some {| target := el; connected := true |};
        log := log b |}, Some DisconnectObserver)
  else (b, None).

(** What the browser does afterwards. *)
Inductive BrowserEvent :=
| AnimationFrame                          (* the next frame is rendered *)
| ImportResolved                          (* the dynamic import is there *)
| IdlePeriod                              (* the browser is idle *)
| Intersection (entries : list bool)      (* the observer is notified;
                                             [isIntersecting] of each entry *)
| Dispose.                                (* the returned disposer is called *)

(** The observer's callback:
    [(entries) => { if (entries[0].isIntersecting) { observer.disconnect();
    this._callback(); } }].  With no entry, [entries[0].isIntersecting]
    throws and nothing else happens. *)
Definition observerCallback (entries : list bool) (o : Observer)
    (b : Browser) : Browser :=
  match entries with
  | true :: _ =>
      {| animationFrames := animationFrames b;
         pendingImports := pendingImports b;
         idleCallbacks := idleCallbacks b;
         observer := Some {| target := target o; connected := false |};
         log := log b ++ [ObserverDisconnected; CallbackInvoked] |}
  | _ => b
  end.

Definition step (b : Browser) (e : BrowserEvent) : Browser :=
  match e with
  | AnimationFrame =>
      {| animationFrames := 0;
         pendingImports := pendingImports b;
         idleCallbacks := idleCallbacks b;
         observer := observer b;
         log := log b ++ repeat CallbackInvoked (animationFrames b) |}
  | ImportResolved =>
      {| animationFrames := animationFrames b;
         pendingImports := 0;
         idleCallbacks := idleCallbacks b + pendingImports b;
         observer := observer b; log := log b |}
  | IdlePeriod =>
      {| animationFrames := animationFrames b;
         pendingImports := pendingImports b;
         idleCallbacks := 0;
         observer := observer b;
         log := log b ++ repeat CallbackInvoked (idleCallbacks b) |}
  | Intersection entries =>
      match observer b with
      | Some o => if connected o then observerCallback entries o b else b
      | None => b
      end
  | Dispose =>
      match observer b with
      | Some o =>
          {| animationFrames := animationFrames b;
             pendingImports := pendingImports b;
             idleCallbacks := idleCallbacks b;
             observer := Some {| target := target o; connected := false |};
             log := log b ++ [ObserverDisconnected] |}
      | None => b
      end
  end.

Definition run (b : Browser) (evs : list BrowserEvent) : Browser :=
  fold_left step evs b.

(** How often the callback ran. *)
Definition invocations (b : Browser) : nat :=
  length (filter (fun a => a = CallbackInvoked) (log b)).

(** [attach SERVER load el]: a controller attached in a fresh browser. *)
Definition attach (SERVER : bool) (load : string) (el : Element) : Browser :=
  fst (onAttach SERVER load el fresh).

(** Event classes used to say "before the trigger". *)
Definition isFrame (e : BrowserEvent) : bool :=
  match e with AnimationFrame => true | _ => false end.
Definition isIdle (e : BrowserEvent) : bool :=
  match e with IdlePeriod => true | _ => false end.
Definition isImport (e : BrowserEvent) : bool :=
  match e with ImportResolved => true | _ => false end.
(** A notification whose first entry intersects: the one the callback of the
    observer reacts to. *)
Definition intersects (e : BrowserEvent) : bool :=
  match e with Intersection (true :: _) => true | _ => false end.
Definition isDispose (e : BrowserEvent) : bool :=
  match e with Dispose => true | _ => false end.

(** The triggers, read off a sequence of browser events. *)

(** ['eager']: some frame is rendered. *)
Definition eagerTriggered (evs : list BrowserEvent) : bool :=
  existsb isFrame evs.

(** ['idle']: the import resolves and, later, the browser is idle. *)
Fixpoint idleTriggered (evs : list BrowserEvent) : bool :=
  match evs with
  | [] => false
  | e :: rest => if isImport e then existsb isIdle rest else idleTriggered rest
  end.

(** ['visible']: a notification reports the element as intersecting before
    the observer is disposed of. *)
Fixpoint visibleTriggered (evs : list BrowserEvent) : bool :=
  match evs with
  | [] => false
  | e :: rest =>
      if intersects e then true
      else if isDispose e then false
      else visibleTriggered rest
  end.

(** A browser in which nothing of the controller is pending any more. *)
Definition quiet (b : Browser) : Prop :=
  animationFrames b = 0 /\ pendingImports b = 0 /\ idleCallbacks b = 0 /\
  match observer b with Some o => connected o = false | None => True end.

Lemma invocations_app (b : Browser) (l : list Action) :
  length (filter (fun a => a = CallbackInvoked) (log b ++ l)) =
  invocations b + length (filter (fun a => a = CallbackInvoked) l).
Proof. unfold invocations. by rewrite filter_app, length_app. Qed.

Lemma step_quiet (b : Browser) (e : BrowserEvent) :
  quiet b -> quiet (step b e) /\ invocations (step b e) = invocations b.
Proof.
  intros (Hf & Hi & Hd & Ho).
  destruct e; unfold quiet, invocations; simpl.
  - rewrite Hf; simpl. rewrite app_nil_r. auto.
  - rewrite Hi, Hd. auto.
  - rewrite Hd; simpl. rewrite app_nil_r. auto.
  - destruct (observer b) as [o|] eqn:Eo; [|rewrite Eo; auto].
    rewrite Ho, Eo. auto.
  - destruct (observer b) as [o|] eqn:Eo; simpl; [|rewrite Eo; auto].
    rewrite filter_app, length_app. simpl. repeat split; auto; lia.
Qed.

Lemma run_quiet (evs : list BrowserEvent) (b : Browser) :
  quiet b -> invocations (run b evs) = invocations b.
Proof.
  revert b. induction evs as [|e evs IH]; intros b Hq; [reflexivity|].
  simpl. destruct (step_quiet b e Hq) as [Hq' Hn].
  rewrite (IH _ Hq'). exact Hn.
Qed.

Lemma onAttach_log (SERVER : bool) (load : string) (el : Element) (b : Browser) :
  log (fst (onAttach SERVER load el b)) = log b.
Proof.
  unfold onAttach. destruct SERVER; [reflexivity|].
  repeat (match goal with |- context [if ?c then _ else _] => destruct c end;
          try reflexivity).
Qed.

Lemma run_server (load : string) (el : Element) (evs : list BrowserEvent) :
  invocations (run (attach true load el) evs) = 0.
Proof. apply (run_quiet evs fresh). repeat split. Qed.

Lemma run_other (load : string) (el : Element) (evs : list BrowserEvent) :
  load <> "eager" -> load <> "idle" -> load <> "visible" ->
  invocations (run (attach false load el) evs) = 0.
Proof.
  intros He Hi Hv. unfold attach, onAttach.
  apply String.eqb_neq in He, Hi, Hv. rewrite He, Hi, Hv. simpl.
  apply (run_quiet evs fresh). repeat split.
Qed.

Lemma run_eager (el : Element) (evs : list BrowserEvent) :
  invocations (run (attach false "eager" el) evs) =
  if eagerTriggered evs then 1 else 0.
Proof.
  unfold eagerTriggered. change (attach false "eager" el) with
    {| animationFrames := 1; pendingImports := 0; idleCallbacks := 0;
       observer := None; log := [] |}.
  induction evs as [|e evs IH]; [reflexivity|].
  destruct e; simpl; try exact IH.
  apply run_quiet. repeat split.
Qed.

Lemma run_idle_scheduled (evs : list BrowserEvent) :
  invocations (run {| animationFrames := 0; pendingImports := 0;
                      idleCallbacks := 1; observer := None; log := [] |} evs) =
  if existsb isIdle evs then 1 else 0.
Proof.
  induction evs as [|e evs IH]; [reflexivity|].
  destruct e; simpl; try exact IH.
  apply run_quiet. repeat split.
Qed.

Lemma run_idle (el : Element) (evs : list BrowserEvent) :
  invocations (run (attach false "idle" el) evs) =
  if idleTriggered evs then 1 else 0.
Proof.
  change (attach false "idle" el) with
    {| animationFrames := 0; pendingImports := 1; idleCallbacks := 0;
       observer := None; log := [] |}.
  induction evs as [|e evs IH]; [reflexivity|].
  destruct e; simpl; try exact IH.
  apply run_idle_scheduled.
Qed.

(** Once the observer is disconnected the log only grows by further
    [disconnect()] calls of the disposer. *)
Lemma run_disconnected (evs : list BrowserEvent) (el : Element) (l : list Action) :
  exists n,
    log (run {| animationFrames := 0; pendingImports := 0; idleCallbacks := 0;
                observer := Some {| target := el; connected := false |};
                log := l |} evs) = l ++ repeat ObserverDisconnected n.
Proof.
  revert l. induction evs as [|e evs IH]; intros l.
  - exists 0. simpl. by rewrite app_nil_r.
  - destruct e; simpl; try rewrite app_nil_r; try apply IH.
    destruct (IH (l ++ [ObserverDisconnected])) as [n Hn].
    exists (S n). rewrite Hn, <- app_assoc. reflexivity.
Qed.

Lemma run_visible (el : Element) (evs : list BrowserEvent) :
  exists n,
    log (run (attach false "visible" el) evs) =
    if visibleTriggered evs
    then [ObserverDisconnected; CallbackInvoked] ++ repeat ObserverDisconnected n
    else repeat ObserverDisconnected n.
Proof.
  change (attach false "visible" el) with
    {| animationFrames := 0; pendingImports := 0; idleCallbacks := 0;
       observer := Some {| target := el; connected := true |}; log := [] |}.
  induction evs as [|e evs IH]; [by exists 0|].
  destruct e as [| | |entries|]; simpl; try exact IH.
  - destruct entries as [|[] entries]; simpl; try exact IH.
    apply (run_disconnected evs el [ObserverDisconnected; CallbackInvoked]).
  - destruct (run_disconnected evs el [ObserverDisconnected]) as [n Hn].
    exists (S n). exact Hn.
Qed.

Lemma invocations_repeat (n : nat) :
  length (filter (fun a => a = CallbackInvoked) (repeat ObserverDisconnected n)) = 0.
Proof. induction n as [|n IH]; [reflexivity|]. simpl. exact IH. Qed.

(** C1.  [onAttach] defers the callback until the trigger of its load
    strategy fires.  [onAttach] itself never runs the callback.  With
    ['eager'] it is queued for the next animation frame and runs when a frame
    is rendered; with ['idle'] it is handed to [waitIdlePeriod] (once the
    import of that function is there) and runs in the next idle period; with
    ['visible'] it runs at the first notification that reports the element
    as intersecting, directly after [observer.disconnect()], and never again.
    With any other strategy, and on the server, it never runs. *)
Theorem onAttach_defers_until_trigger
    (el : Element) (evs : list BrowserEvent) :
  (forall SERVER load b, log (fst (onAttach SERVER load el b)) = log b) /\
  (animationFrames (attach false "eager" el) = 1 /\
   invocations (run (attach false "eager" el) evs) =
     if eagerTriggered evs then 1 else 0) /\
  (pendingImports (attach false "idle" el) = 1 /\
   idleCallbacks (step (attach false "idle" el) ImportResolved) = 1 /\
   invocations (run (attach false "idle" el) evs) =
     if idleTriggered evs then 1 else 0) /\
  (observer (attach false "visible" el) =
     Some {| target := el; connected := true |} /\
   (exists n, log (run (attach false "visible" el) evs) =
      if visibleTriggered evs
      then [ObserverDisconnected; CallbackInvoked] ++ repeat ObserverDisconnected n
      else repeat ObserverDisconnected n) /\
   invocations (run (attach false "visible" el) evs) =
     if visibleTriggered evs then 1 else 0) /\
  (forall load, load <> "eager" -> load <> "idle" -> load <> "visible" ->
     invocations (run (attach false load el) evs) = 0) /\
  (forall load, invocations (run (attach true load el) evs) = 0).
Proof.
  split; [intros; apply onAttach_log|].
  split; [split; [reflexivity|apply run_eager]|].
  split; [split; [reflexivity|split; [reflexivity|apply run_idle]]|].
  split.
  { split; [reflexivity|]. split; [apply run_visible|].
    destruct (run_visible el evs) as [n Hn]. unfold invocations. rewrite Hn.
    destruct (visibleTriggered evs); simpl; by rewrite invocations_repeat. }
  split; [intros; by apply run_other|intros; apply run_server].
Qed.

(** The triggers on concrete event sequences. *)
Example visible_fires_once (el : Element) :
  log (run (attach false "visible" el)
         [AnimationFrame; Intersection [false]; Intersection [true];
          Intersection [true]; Dispose]) =
  [ObserverDisconnected; CallbackInvoked; ObserverDisconnected].
Proof. reflexivity. Qed.

Example idle_needs_import_first (el : Element) :
  invocations (run (attach false "idle" el) [IdlePeriod; AnimationFrame]) = 0 /\
  invocations (run (attach false "idle" el) [ImportResolved; IdlePeriod]) = 1.
Proof. split; reflexivity. Qed.

(** ** Further facts about the load controller *)

Lemma invocations_visible (el : Element) (evs : list BrowserEvent) :
  invocations (run (attach false "visible" el) evs) =
  if visibleTriggered evs then 1 else 0.
Proof.
  destruct (run_visible el evs) as [n Hn]. unfold invocations. rewrite Hn.
  destruct (visibleTriggered evs); simpl; by rewrite invocations_repeat.
Qed.

(** Whatever the strategy, and whatever the browser does, the callback runs
    at most once. *)
Lemma callback_runs_at_most_once (SERVER : bool) (load : string) (el : Element)
    (evs : list BrowserEvent) :
  invocations (run (attach SERVER load el) evs) <= 1.
Proof.
  destruct SERVER; [rewrite run_server; lia|].
  destruct (String.eqb_spec load "eager") as [->|He].
  { rewrite run_eager. destruct (eagerTriggered evs); lia. }
  destruct (String.eqb_spec load "idle") as [->|Hi].
  { rewrite run_idle. destruct (idleTriggered evs); lia. }
  destruct (String.eqb_spec load "visible") as [->|Hv].
  { rewrite invocations_visible. destruct (visibleTriggered evs); lia. }
  rewrite run_other by assumption. lia.
Qed.

Lemma visibleTriggered_disposed (before after : list BrowserEvent) :
  forallb (fun e => negb (intersects e)) before = true ->
  visibleTriggered (before ++ Dispose :: after) = false.
Proof.
  induction before as [|e before IH]; intros H; [reflexivity|].
  simpl in H. apply andb_prop in H as [He Hb]. simpl.
  destruct (intersects e); [discriminate He|].
  destruct (isDispose e); [reflexivity|]. by apply IH.
Qed.

(** With ['visible'], once the disposer was called before the element came
    into view, the callback never runs, whatever is reported later. *)
Lemma disposed_observer_never_fires (el : Element)
    (before after : list BrowserEvent) :
  forallb (fun e => negb (intersects e)) before = true ->
  invocations (run (attach false "visible" el) (before ++ Dispose :: after)) = 0.
Proof.
  intros H. rewrite invocations_visible.
  by rewrite (visibleTriggered_disposed before after H).
Qed.

Lemma disposed_observer_never_fires_witness :
  invocations (run (attach false "visible" 7)
                 ([AnimationFrame; Intersection [false]] ++
                  Dispose :: [Intersection [true]; Intersection [true]])) = 0.
Proof. apply disposed_observer_never_fires. reflexivity. Defined.

End LoadController.

(* ===================================================================== *)
(** * 2. DASHLibLoader                                                    *)
(* ===================================================================== *)

Module DashLoader.

(** A [dash.js] constructor, by name. *)
Definition DashConstructor := string.

(** A value that was thrown, or with which a promise was rejected. *)
Inductive Thrown :=
| ThrownError (message : string)   (* an [Error] *)
| ThrownValue (value : string).    (* anything else *)

(** An [Error] object. *)
Record JsError := { message : string }.

Inductive Detail :=
| NoDetail
| CtorDetail (ctor : DashConstructor)
| ErrorDetail (error : JsError).

(** [new DOMEvent(type, { detail })]. *)
Record DOMEvent := { type : string; detail : Detail }.

(** The object handed to [delegate._notify('error', ...)]. *)
Record MediaError := {
  error_message : string;
  code : Z;
  error : option JsError
}.

(** Everything the loader does to its context, in order. *)
Inductive Effect :=
| Logged (text : string)                         (* this._ctx.logger?. ... *)
| Dispatched (event : DOMEvent)                  (* this._ctx.player.dispatch *)
| Notified (type : string) (detail : MediaError) (* this._ctx.delegate._notify *)
| CallbackCalled (ctor : DashConstructor).       (* this._callback(ctor) *)

(** How a piece of code ends: it returns, or it throws (for an [async]
    function: its promise resolves, or is rejected). *)
Inductive Completion (A : Type) :=
| Returned (a : A)
| Threw (e : Thrown).
Arguments Returned {A} a.
Arguments Threw {A} e.

(** Code that leaves a trace of effects and completes. *)
Definition Run (A : Type) : Type := list Effect * Completion A.

Definition ret {A} (a : A) : Run A := ([], Returned a).
Definition throw {A} (e : Thrown) : Run A := ([], Threw e).
Definition emit (x : Effect) : Run unit := ([x], Returned tt).
Definition bind {A B} (m : Run A) (k : A -> Run B) : Run B :=
  match m with
  | (t, Returned a) => let (t', r) := k a in (t ++ t', r)
  | (t, Threw e) => (t, Threw e)
  end.
(** [try { body } catch (err) { handler(err) }]. *)
Definition tryCatch {A} (body : Run A) (handler : Thrown -> Run A) : Run A :=
  match body with
  | (t, Returned a) => (t, Returned a)
  | (t, Threw e) => let (t', r) := handler e in (t ++ t', r)
  end.

Declare Scope run_scope.
Delimit Scope run_scope with run.
Notation "x <- m ;; k" := (bind m (fun x => k))
  (at level 100, m at next level, right associativity) : run_scope.
Notation "m ;; k" := (bind m (fun _ => k))
  (at level 100, right associativity) : run_scope.
Local Open Scope run_scope.

Definition trace {A} (m : Run A) : list Effect := fst m.
Definition completion {A} (m : Run A) : Completion A := snd m.

(** [window.dashjs]. *)
Record DashGlobal := {
  MediaPlayer : option DashConstructor;  (* [Some c]: a function [c];
                                            [None]: not a function *)
  supportsMediaSource : bool             (* what [supportsMediaSource()] returns *)
}.

(** [loader.prototype]. *)
Inductive Prototype :=
| NoPrototype          (* undefined: an arrow function *)
| PrototypeIsFunction  (* [Function] itself *)
| PrototypeObject.     (* an object: a class or a [function] *)

(** What [(await loader())?.default] gives. *)
Inductive LoaderResult :=
| LoaderFails (e : Thrown)                        (* it throws or rejects *)
| LoaderYields (default : option DashConstructor). (* [None]: nothing truthy *)

(** A function passed as the library. *)
Record JsFunction := {
  self : DashConstructor;
  prototype : Prototype;
  call : LoaderResult
}.

(** [DashLibrary = DashConstructor | DashConstructorLoader | string | undefined]. *)
Inductive DashLibrary :=
| LibUndefined
| LibString (src : string)
| LibFunction (f : JsFunction).

Definition isString (lib : DashLibrary) : bool :=
  match lib with LibString _ => true | _ => false end.

(** What the loader finds around it. *)
Record Env := {
  DEV : bool;                                 (* __DEV__ *)
  logger : bool;                              (* this._ctx.logger is there *)
  loadScript : string -> option Thrown;       (* [None]: the script loaded;
                                                 [Some e]: rejected with [e] *)
  dashjs : option DashGlobal;                 (* window.dashjs, once the
                                                 library has been fetched *)
  callback : DashConstructor -> option Thrown (* this._callback(ctor):
                                                 [Some e] when it throws [e] *)
}.

Record LoadDASHConstructorCallbacks := {
  onLoadStart : option (Run unit);
  onLoaded : option (DashConstructor -> Run unit);
  onLoadError : option (Thrown -> Run unit)
}.

(** [callbacks.f?.(x)]. *)
Definition callOpt {A} (f : option (A -> Run unit)) (x : A) : Run unit :=
  match f with Some f => f x | None => ret tt end.
Definition callOpt0 (f : option (Run unit)) : Run unit :=
  match f with Some f => f | None => ret tt end.

Section Loader.

(** [coerceToError] of [utils/error]. *)
Variable coerceToError : Thrown -> JsError.
Variable env : Env.

Definition devLog (text : string) : Run unit :=
  if DEV env && logger env then emit (Logged text) else ret tt.

Definition awaitScript (src : string) : Run unit :=
  match loadScript env src with None => ret tt | Some e => throw e end.

(** [window.dashjs.<property>]: a [TypeError] when [window.dashjs] is
    undefined. *)
Definition readDashjs (property : string) : Run DashGlobal :=
  match dashjs env with
  | Some g => ret g
  | None =>
      throw (ThrownError
               ("Cannot read properties of undefined (reading '" ++ property ++ "')"))
  end.

Definition _onLoadStart : Run unit :=
  devLog "Starting to load `dash.js`";;
  emit (Dispatched {| type := "dash-lib-load-start"; detail := NoDetail |}).

Definition _onLoaded (ctor : DashConstructor) : Run unit :=
  devLog "Loaded `dash.js`";;
  emit (Dispatched {| type := "dash-lib-loaded"; detail := CtorDetail ctor |});;
  emit (CallbackCalled ctor);;
  match callback env ctor with None => ret tt | Some e => throw e end.

Definition _onLoadError (e : Thrown) : Run unit :=
  let error := coerceToError e in
  devLog "[vidstack] Failed to load `dash.js`";;
  emit (Dispatched {| type := "dash-lib-load-error"; detail := ErrorDetail error |});;
  emit (Notified "error"
          {| error_message := message error; code := 4; error := Some error |}).

Definition importDASH (loader : option JsFunction)
    (callbacks : LoadDASHConstructorCallbacks) : Run (option DashConstructor) :=
  match loader with
  | None => ret None
  | Some f =>
      callOpt0 (onLoadStart callbacks);;
      match prototype f with
      | PrototypeObject =>
          (* Must be static. *)
          callOpt (onLoaded callbacks) (self f);;
          ret (Some (self f))
      | _ =>
          tryCatch
            (ctor <- match call f with
                     | LoaderFails e => throw e
                     | LoaderYields d => ret d
                     end;;
             match ctor with
             | Some c => callOpt (onLoaded callbacks) c;; ret (Some c)
             | None =>
                 throw (ThrownError
                          (if DEV env
                           then "[vidstack] failed importing `dash.js`. Dynamic import returned invalid constructor."
                           else ""))
             end)
            (fun err => callOpt (onLoadError callbacks) err;; ret None)
      end
  end.

Definition loadDASHScript (src : DashLibrary)
    (callbacks : LoadDASHConstructorCallbacks) : Run (option DashConstructor) :=
  match src with
  | LibString s =>
      callOpt0 (onLoadStart callbacks);;
      tryCatch
        (awaitScript s;;
         g <- readDashjs "MediaPlayer";;
         match MediaPlayer g with
         | None =>
             throw (ThrownError
                      (if DEV env
                       then "[vidstack] failed loading `dash.js`. Could not find a valid `Dash` constructor on window"
                       else ""))
         | Some ctor => callOpt (onLoaded callbacks) ctor;; ret (Some ctor)
         end)
        (fun err => callOpt (onLoadError callbacks) err;; ret None)
  | _ => ret None
  end.

(** The callbacks [_startLoading] passes on. *)
Definition loaderCallbacks : LoadDASHConstructorCallbacks :=
  {| onLoadStart := Some _onLoadStart;
     onLoaded := Some _onLoaded;
     onLoadError := Some _onLoadError |}.

Definition unsupportedMessage : string :=
  "[vidstack] `dash.js` is not supported in this environment".

(** [_startLoading()]; [None] is the [null] it returns. *)
Definition _startLoading (lib : DashLibrary) : Run (option DashConstructor) :=
  devLog "🏗️ Loading DASH Library";;
  ctor <- loadDASHScript lib loaderCallbacks;;
  ctor <- match ctor, lib with
          | None, LibUndefined => importDASH None loaderCallbacks
          | None, LibFunction f => importDASH (Some f) loaderCallbacks
          | _, _ => ret ctor
          end;;
  match ctor with
  | None => ret None
  | Some c =>
      g <- readDashjs "supportsMediaSource";;
      if supportsMediaSource g then ret (Some c)
      else
        devLog unsupportedMessage;;
        emit (Dispatched {| type := "dash-unsupported"; detail := NoDetail |});;
        emit (Notified "error"
                {| error_message := unsupportedMessage; code := 4; error := None |});;
        ret None
  end.

(** ** What is observed of a load attempt *)

Definition loadStart : Effect :=
  Dispatched {| type := "dash-lib-load-start"; detail := NoDetail |}.
Definition loaded (ctor : DashConstructor) : Effect :=
  Dispatched {| type := "dash-lib-loaded"; detail := CtorDetail ctor |}.
Definition loadError (e : Thrown) : Effect :=
  Dispatched {| type := "dash-lib-load-error";
                detail := ErrorDetail (coerceToError e) |}.
Definition unsupported : Effect :=
  Dispatched {| type := "dash-unsupported"; detail := NoDetail |}.
(** [_notify('error', { message, code: 4, ... })]. *)
Definition notifiesCode4 (x : Effect) : bool :=
  match x with
  | Notified t m => String.eqb t "error" && Z.eqb (code m) 4
  | _ => false
  end.

(** The events of the load lifecycle, and the call of the success callback. *)
Definition isLifecycle (x : Effect) : bool :=
  match x with
  | Dispatched ev =>
      String.eqb (type ev) "dash-lib-load-start"
      || String.eqb (type ev) "dash-lib-loaded"
      || String.eqb (type ev) "dash-lib-load-error"
  | CallbackCalled _ => true
  | _ => false
  end.

Definition lifecycle (lib : DashLibrary) : list Effect :=
  List.filter isLifecycle (trace (_startLoading lib)).

(** The lifecycle of a load attempt as it should be: one start event, then
    either the loaded event and the success callback with the same
    constructor, or one error event with the coerced error. *)
Definition reportsLifecycle (lib : DashLibrary) : Prop :=
  (exists ctor, lifecycle lib = [loadStart; loaded ctor; CallbackCalled ctor]) \/
  (exists e, lifecycle lib = [loadStart; loadError e]).

(** Every error or unsupported event is directly followed (logging apart)
    by a notification of an error with code 4. *)
Definition isErrorEvent (x : Effect) : bool :=
  match x with
  | Dispatched ev =>
      String.eqb (type ev) "dash-lib-load-error"
      || String.eqb (type ev) "dash-unsupported"
  | _ => false
  end.

Fixpoint errorsNotified (t : list Effect) : bool :=
  match t with
  | [] => true
  | x :: rest =>
      (if isErrorEvent x
       then match rest with y :: _ => notifiesCode4 y | [] => false end
       else true)
      && errorsNotified rest
  end.

(** The ways loading fails: the script is rejected; it loads but leaves no
    [window.dashjs], or no function [window.dashjs.MediaPlayer]; the dynamic
    import throws or is rejected; it has no truthy [default]. *)
Inductive loadFailure : DashLibrary -> Prop :=
| ScriptRejected (s : string) (e : Thrown) :
    loadScript env s = Some e -> loadFailure (LibString s)
| NoDashGlobal (s : string) :
    loadScript env s = None -> dashjs env = None -> loadFailure (LibString s)
| NoConstructor (s : string) (g : DashGlobal) :
    loadScript env s = None -> dashjs env = Some g -> MediaPlayer g = None ->
    loadFailure (LibString s)
| ImportFailed (f : JsFunction) (e : Thrown) :
    prototype f <> PrototypeObject -> call f = LoaderFails e ->
    loadFailure (LibFunction f)
| ImportInvalid (f : JsFunction) :
    prototype f <> PrototypeObject -> call f = LoaderYields None ->
    loadFailure (LibFunction f).

(** The ways the promise of [_startLoading] is rejected.  A constructor that
    was passed in directly and whose success callback throws: [importDASH]
    calls [onLoaded] outside its [try] there.  A constructor that was passed
    in or imported while there is no [window.dashjs] to ask for media source
    support. *)
Inductive rejected : DashLibrary -> Thrown -> Prop :=
| StaticCallbackThrows (f : JsFunction) (e : Thrown) :
    prototype f = PrototypeObject -> callback env (self f) = Some e ->
    rejected (LibFunction f) e
| StaticWithoutGlobal (f : JsFunction) :
    prototype f = PrototypeObject -> callback env (self f) = None ->
    dashjs env = None ->
    rejected (LibFunction f)
      (ThrownError "Cannot read properties of undefined (reading 'supportsMediaSource')")
| ImportedWithoutGlobal (f : JsFunction) (ctor : DashConstructor) :
    prototype f <> PrototypeObject -> call f = LoaderYields (Some ctor) ->
    callback env ctor = None -> dashjs env = None ->
    rejected (LibFunction f)
      (ThrownError "Cannot read properties of undefined (reading 'supportsMediaSource')").

Definition isLog (x : Effect) : bool :=
  match x with Logged _ => true | _ => false end.
Definition withoutLogs (t : list Effect) : list Effect :=
  List.filter (fun x => negb (isLog x)) t.

(** [new DASHLibLoader(lib, ctx, callback)]: the constructor calls
    [this._startLoading()] and does not wait for its promise; what the
    promise ends in does not reach the caller. *)
Definition DASHLibLoader (lib : DashLibrary) : Run unit :=
  (trace (_startLoading lib), Returned tt).

End Loader.

Arguments reportsLifecycle coerceToError env lib : assert.
Arguments loadFailure env _ : assert.
Arguments rejected env _ _ : assert.

(** ** Proofs *)

(** Unfolds the loader down to the monad's operations. *)
Ltac unfold_loader :=
  unfold lifecycle, withoutLogs, trace, completion, _startLoading,
    loadDASHScript, importDASH, loaderCallbacks, _onLoadStart, _onLoaded,
    _onLoadError, awaitScript, readDashjs, devLog, callOpt, callOpt0; simpl.

Section LoaderFacts.

Variable coerceToError : Thrown -> JsError.

Lemma loadDASHScript_not_string (env : Env) (src : DashLibrary)
    (callbacks : LoadDASHConstructorCallbacks) :
  isString src = false -> loadDASHScript env src callbacks = ([], Returned None).
Proof. destruct src; simpl; [reflexivity|discriminate|reflexivity]. Qed.

Lemma _onLoadError_returns (env : Env) (e : Thrown) :
  completion (_onLoadError coerceToError env e) = Returned tt.
Proof. unfold _onLoadError, devLog. destruct (DEV env && logger env); reflexivity. Qed.

Lemma loadDASHScript_returns (env : Env) (src : DashLibrary) :
  exists r,
    completion (loadDASHScript env src (loaderCallbacks coerceToError env)) =
    Returned r.
Proof.
  destruct src as [|s|f]; [by exists None| |by exists None].
  unfold loadDASHScript, loaderCallbacks, _onLoadStart, _onLoaded, _onLoadError,
    awaitScript, readDashjs, devLog, completion; simpl.
  destruct env as [dev lg script [[mp sup]|] cb]; simpl;
    destruct (dev && lg), (script s); simpl; eauto;
    destruct mp as [c|]; simpl; eauto;
    destruct (cb c); simpl; eauto.
Qed.

(** C2, as the code has it.  A load attempt for a library that is there (a
    URL, a constructor or a loader function), whose success callback returns,
    dispatches ['dash-lib-load-start'] once and first, and then ends in
    exactly one of: ['dash-lib-loaded'] with the constructor followed by the
    success callback with that constructor, or ['dash-lib-load-error'] with
    the coerced error. *)
Theorem load_attempt_reports_lifecycle (env : Env) (lib : DashLibrary) :
  lib <> LibUndefined ->
  (forall ctor, callback env ctor = None) ->
  reportsLifecycle coerceToError env lib.
Proof.
  intros Hlib Hcb. unfold reportsLifecycle.
  destruct lib as [|s|[c proto result]]; [contradiction| |].
  - unfold_loader.
    destruct env as [dev lg script [[mp sup]|] cb]; simpl in *;
      destruct (dev && lg), (script s) as [e|]; simpl; eauto;
      destruct mp as [c|]; simpl; eauto;
      rewrite (Hcb c); simpl; destruct sup; simpl; eauto.
  - unfold_loader.
    destruct env as [dev lg script g cb]; simpl in *.
    destruct proto, result as [e|[d|]]; simpl;
      destruct (dev && lg); simpl; eauto;
      rewrite ?(Hcb c), ?(Hcb d); simpl;
      destruct g as [[mp []]|]; simpl; eauto.
Qed.

Lemma errors_are_notified (env : Env) (lib : DashLibrary) :
  errorsNotified (withoutLogs (trace (_startLoading coerceToError env lib))) = true.
Proof.
  destruct lib as [|s|[c proto result]]; unfold_loader.
  - destruct (DEV env && logger env); reflexivity.
  - destruct env as [dev lg script [[mp sup]|] cb]; simpl in *;
      destruct (dev && lg), (script s) as [e|]; simpl; try reflexivity;
      destruct mp as [c|]; simpl; try reflexivity;
      destruct (cb c); simpl; try reflexivity;
      destruct sup; reflexivity.
  - destruct env as [dev lg script g cb]; simpl in *.
    destruct proto, result as [e|[d|]]; simpl;
      destruct (dev && lg); simpl; try reflexivity;
      try destruct (cb c); try destruct (cb d); simpl; try reflexivity;
      destruct g as [[mp []]|]; reflexivity.
Qed.

Lemma failure_resolves_to_null (env : Env) (lib : DashLibrary) :
  loadFailure env lib ->
  completion (_startLoading coerceToError env lib) = Returned None /\
  existsb notifiesCode4 (trace (_startLoading coerceToError env lib)) = true.
Proof.
  intros H. destruct H as [s e Hs|s Hs Hg|s g Hs Hg Hmp|f e Hp Hf|f Hp Hf];
    destruct env as [dev lg script dg cb]; simpl in *; unfold_loader.
  - rewrite Hs. destruct (dev && lg); simpl; auto.
  - rewrite Hs, Hg. destruct (dev && lg); simpl; auto.
  - rewrite Hs, Hg. destruct g as [mp sup]; simpl in *; subst mp.
    destruct (dev && lg); simpl; auto.
  - rewrite Hf. destruct (prototype f); try contradiction;
      destruct (dev && lg); simpl; auto.
  - rewrite Hf. destruct (prototype f); try contradiction;
      destruct (dev && lg); simpl; auto.
Qed.

Lemma unsupported_resolves_to_null (env : Env) (lib : DashLibrary) (g : DashGlobal) :
  dashjs env = Some g -> supportsMediaSource g = false ->
  (forall f, lib = LibFunction f -> prototype f = PrototypeObject ->
             callback env (self f) = None) ->
  completion (_startLoading coerceToError env lib) = Returned None /\
  (forall ctor, In (loaded ctor) (trace (_startLoading coerceToError env lib)) ->
     callback env ctor = None ->
     In unsupported (trace (_startLoading coerceToError env lib)) /\
     existsb notifiesCode4 (trace (_startLoading coerceToError env lib)) = true).
Proof.
  intros Hg Hsup Hcb.
  destruct env as [dev lg script dg cb]; simpl in *; subst dg.
  destruct g as [mp sup]; simpl in *; subst sup.
  unfold loaded, unsupported.
  destruct lib as [|s|[c proto result]]; unfold_loader.
  - destruct (dev && lg); simpl; split; auto; intros ? []; try discriminate; tauto.
  - destruct (dev && lg), (script s) as [e|]; simpl;
      try (split; [reflexivity|intros ? H; repeat destruct H as [H|H];
                                 try discriminate; tauto]);
      destruct mp as [c|]; simpl;
      try (split; [reflexivity|intros ? H; repeat destruct H as [H|H];
                                 try discriminate; tauto]);
      destruct (cb c) as [e|] eqn:Hc; simpl;
      (split; [reflexivity|]); intros ctor H Hctor;
      repeat destruct H as [H|H]; try discriminate; try tauto;
      try (injection H as <-; congruence); auto 10.
  - assert (Hc : proto = PrototypeObject -> cb c = None).
    { intros ->. apply (Hcb _ eq_refl eq_refl). }
    clear Hcb.
    destruct proto, result as [e|[d|]]; simpl;
      rewrite ?(Hc eq_refl); simpl;
      destruct (dev && lg); simpl;
      try (split; [reflexivity|intros ? H; repeat destruct H as [H|H];
                                 try discriminate; tauto]);
      try (destruct (cb d) as [e'|] eqn:Hd; simpl);
      (split; [reflexivity|]); intros ctor H Hctor;
      repeat destruct H as [H|H]; try discriminate; try tauto;
      try (injection H as <-; congruence); auto 10.
Qed.

(** The promise of [_startLoading] is rejected in the ways of [rejected],
    and in no other. *)
Lemma _startLoading_rejected (env : Env) (lib : DashLibrary) (e : Thrown) :
  completion (_startLoading coerceToError env lib) = Threw e <-> rejected env lib e.
Proof.
  split.
  - destruct lib as [|s|[c proto result]]; unfold_loader.
    + destruct (DEV env && logger env); discriminate.
    + destruct env as [dev lg script [[mp sup]|] cb]; simpl in *;
        destruct (dev && lg), (script s); simpl; try discriminate;
        destruct mp as [c|]; simpl; try discriminate;
        destruct (cb c); simpl; try discriminate;
        destruct sup; discriminate.
    + destruct env as [dev lg script g cb]; simpl in *.
      destruct proto, result as [e0|[d|]]; simpl;
        destruct (dev && lg); simpl; try discriminate;
        try match goal with
            | |- context [cb ?x] => destruct (cb x) as [e'|] eqn:Hc
            end;
        simpl; try discriminate;
        destruct g as [[mp []]|]; simpl; try discriminate;
        intros [= <-];
        solve [ by apply StaticCallbackThrows
              | by apply StaticWithoutGlobal
              | by eapply ImportedWithoutGlobal ].
  - intros H. destruct H as [f e Hp Hc|f Hp Hc Hg|f ctor Hp Hf Hc Hg];
      destruct f as [c proto result], env as [dev lg script g cb];
      simpl in *; subst; unfold_loader.
    + rewrite Hc. destruct (dev && lg); reflexivity.
    + rewrite Hc. destruct (dev && lg); reflexivity.
    + destruct proto; try contradiction; rewrite Hc;
        destruct (dev && lg); reflexivity.
Qed.

(** The promise of [_startLoading] resolves for a remote source and for no
    source at all. *)
Lemma _startLoading_resolves (env : Env) (lib : DashLibrary) :
  (forall f, lib <> LibFunction f) ->
  exists r, completion (_startLoading coerceToError env lib) = Returned r.
Proof.
  intros H.
  destruct (completion (_startLoading coerceToError env lib)) as [r|e] eqn:Hc;
    [by exists r|].
  apply _startLoading_rejected in Hc. destruct Hc; by destruct (H f).
Qed.


End LoaderFacts.

(** ** Concrete runs *)

(** A [coerceToError] that keeps the message of an [Error] and wraps any
    other value. *)
Definition messageOf (e : Thrown) : JsError :=
  match e with
  | ThrownError m => {| message := m |}
  | ThrownValue v => {| message := v |}
  end.

(** A production browser in which everything works. *)
Definition browser : Env :=
  {| DEV := false; logger := false;
     loadScript := fun _ => None;
     dashjs := Some {| MediaPlayer := Some "MediaPlayer";
                       supportsMediaSource := true |};
     callback := fun _ => None |}.

(** The same, but the success callback throws. *)
Definition browserThrowingCallback : Env :=
  {| DEV := false; logger := false;
     loadScript := fun _ => None;
     dashjs := Some {| MediaPlayer := Some "MediaPlayer";
                       supportsMediaSource := true |};
     callback := fun _ => Some (ThrownError "setup failed") |}.

(** The same as [browser], but the network is down. *)
Definition offline : Env :=
  {| DEV := false; logger := false;
     loadScript := fun _ => Some (ThrownValue "net::ERR_FAILED");
     dashjs := None;
     callback := fun _ => None |}.

(** The same as [browser], without media source extensions. *)
Definition noMediaSource : Env :=
  {| DEV := true; logger := true;
     loadScript := fun _ => None;
     dashjs := Some {| MediaPlayer := Some "MediaPlayer";
                       supportsMediaSource := false |};
     callback := fun _ => None |}.

Definition cdn : DashLibrary := LibString "https://cdn.dashjs.org/latest/dash.all.min.js".

Example load_from_cdn :
  _startLoading messageOf browser cdn =
  ([loadStart; loaded "MediaPlayer"; CallbackCalled "MediaPlayer"],
   Returned (Some "MediaPlayer")).
Proof. reflexivity. Qed.

Example load_offline :
  _startLoading messageOf offline cdn =
  ([loadStart; loadError messageOf (ThrownValue "net::ERR_FAILED");
    Notified "error" {| error_message := "net::ERR_FAILED"; code := 4;
                        error := Some {| message := "net::ERR_FAILED" |} |}],
   Returned None).
Proof. reflexivity. Qed.

Example load_unsupported :
  withoutLogs (trace (_startLoading messageOf noMediaSource cdn)) =
  [loadStart; loaded "MediaPlayer"; CallbackCalled "MediaPlayer"; unsupported;
   Notified "error" {| error_message := unsupportedMessage; code := 4;
                       error := None |}] /\
  completion (_startLoading messageOf noMediaSource cdn) = Returned None.
Proof. split; reflexivity. Qed.

(** A loader function written with [function] has a prototype object and is
    taken for the constructor itself. *)
Example function_loader_taken_as_constructor :
  _startLoading messageOf browser
    (LibFunction {| self := "loader"; prototype := PrototypeObject;
                    call := LoaderYields (Some "MediaPlayer") |}) =
  ([loadStart; loaded "loader"; CallbackCalled "loader"], Returned (Some "loader")).
Proof. reflexivity. Qed.

Lemma load_attempt_reports_lifecycle_witness :
  reportsLifecycle messageOf browser cdn.
Proof.
  apply load_attempt_reports_lifecycle; [discriminate|intros ctor; reflexivity].
Defined.

(** C2 as it is written fails for a loader that was given no library:
    [importDASH] returns at once and no event is dispatched at all. *)
Lemma undefined_library_reports_nothing :
  _startLoading messageOf browser LibUndefined = ([], Returned None) /\
  ~ reportsLifecycle messageOf browser LibUndefined.
Proof.
  split; [reflexivity|].
  intros [[ctor H]|[e H]]; discriminate H.
Qed.

(** When the success callback throws inside the [try] of [loadDASHScript],
    the loaded event is followed by the error event. *)
Lemma throwing_callback_reports_both :
  lifecycle messageOf browserThrowingCallback cdn =
  [loadStart; loaded "MediaPlayer"; CallbackCalled "MediaPlayer";
   loadError messageOf (ThrownError "setup failed")] /\
  ~ reportsLifecycle messageOf browserThrowingCallback cdn.
Proof.
  split; [reflexivity|].
  intros [[ctor H]|[e H]]; discriminate H.
Qed.

(** On the static path the callback is called outside any [try]: the promise
    of [_startLoading] is rejected with what the callback threw (nobody
    waits for that promise). *)
Example throwing_callback_static :
  _startLoading messageOf browserThrowingCallback
    (LibFunction {| self := "MediaPlayer"; prototype := PrototypeObject;
                    call := LoaderFails (ThrownError "not a loader") |}) =
  ([loadStart; loaded "MediaPlayer"; CallbackCalled "MediaPlayer"],
   Threw (ThrownError "setup failed")).
Proof. reflexivity. Qed.

(** A page that gets [dash.js] as a module: nothing puts [dashjs] on
    [window]. *)
Definition moduleOnly : Env :=
  {| DEV := false; logger := false;
     loadScript := fun _ => None;
     dashjs := None;
     callback := fun _ => None |}.

(** No media source extensions, and a success callback that throws. *)
Definition noMediaSourceThrowingCallback : Env :=
  {| DEV := false; logger := false;
     loadScript := fun _ => None;
     dashjs := Some {| MediaPlayer := Some "MediaPlayer";
                       supportsMediaSource := false |};
     callback := fun _ => Some (ThrownError "setup failed") |}.

(** [() => import('dashjs')]. *)
Definition dynamicImport : DashLibrary :=
  LibFunction {| self := "loader"; prototype := NoPrototype;
                 call := LoaderYields (Some "MediaPlayer") |}.

(** The constructor itself. *)
Definition staticImport : DashLibrary :=
  LibFunction {| self := "MediaPlayer"; prototype := PrototypeObject;
                 call := LoaderFails (ThrownError "not a loader") |}.


Example offline_is_a_failure :
  loadFailure offline cdn /\
  completion (_startLoading messageOf offline cdn) = Returned None.
Proof.
  split; [by apply (ScriptRejected offline _ (ThrownValue "net::ERR_FAILED"))|].
  reflexivity.
Qed.

(** ** Further facts about the loader *)

(** Picks the lifecycle a trace has. *)
Ltac lifecycle_shape :=
  solve [ left; eexists; reflexivity
        | right; left; eexists; reflexivity
        | right; right; do 2 eexists; split; [eassumption|reflexivity] ].

Section MoreLoaderFacts.

Variable coerceToError : Thrown -> JsError.

(** Every load attempt has one of four lifecycles: none at all (no
    library); start, loaded, callback; start, error; or, when the success
    callback throws inside a [try], start, loaded, callback, error.  So the
    start event comes at most once and first, and the success callback is
    called at most once, right after the loaded event that carries its
    constructor. *)
Lemma lifecycle_shapes (env : Env) (lib : DashLibrary) :
  (lib = LibUndefined /\ lifecycle coerceToError env lib = []) \/
  (exists ctor,
     lifecycle coerceToError env lib =
     [loadStart; loaded ctor; CallbackCalled ctor]) \/
  (exists e, lifecycle coerceToError env lib = [loadStart; loadError coerceToError e]) \/
  (exists ctor e,
     callback env ctor = Some e /\
     lifecycle coerceToError env lib =
     [loadStart; loaded ctor; CallbackCalled ctor; loadError coerceToError e]).
Proof.
  destruct lib as [|s|[c proto result]].
  - left. split; [reflexivity|]. unfold_loader.
    destruct (DEV env && logger env); reflexivity.
  - right. unfold_loader.
    destruct env as [dev lg script [[mp sup]|] cb]; simpl in *;
      destruct (dev && lg), (script s) as [e|]; simpl; try lifecycle_shape;
      destruct mp as [c|]; simpl; try lifecycle_shape;
      destruct (cb c) as [e|] eqn:Hcb; simpl; try lifecycle_shape;
      destruct sup; simpl; lifecycle_shape.
  - right. unfold_loader.
    destruct env as [dev lg script g cb]; simpl in *.
    destruct proto, result as [e|[d|]]; simpl;
      destruct (dev && lg); simpl; try lifecycle_shape;
      try match goal with
          | |- context [cb ?x] => destruct (cb x) as [e'|] eqn:Hcb
          end;
      simpl; try lifecycle_shape;
      destruct g as [[mp []]|]; simpl; lifecycle_shape.
Qed.

Definition isNotified (x : Effect) : bool :=
  match x with Notified _ _ => true | _ => false end.

(** When [_startLoading] resolves to a constructor, that constructor was
    announced and handed to the success callback, the callback returned,
    media source extensions are supported, and no error was reported. *)
Lemma resolved_constructor_was_loaded (env : Env) (lib : DashLibrary)
    (ctor : DashConstructor) :
  completion (_startLoading coerceToError env lib) = Returned (Some ctor) ->
  lifecycle coerceToError env lib = [loadStart; loaded ctor; CallbackCalled ctor] /\
  existsb isNotified (trace (_startLoading coerceToError env lib)) = false /\
  callback env ctor = None /\
  exists g, dashjs env = Some g /\ supportsMediaSource g = true.
Proof.
  destruct lib as [|s|[c proto result]]; unfold_loader.
  - destruct (DEV env && logger env); discriminate.
  - destruct env as [dev lg script [[mp sup]|] cb]; simpl in *;
      destruct (dev && lg), (script s) as [e|]; simpl; try discriminate;
      destruct mp as [c|]; simpl; try discriminate;
      destruct (cb c) as [e|] eqn:Hcb; simpl; try discriminate;
      destruct sup; simpl; try discriminate;
      intros [= <-]; eauto 8.
  - destruct env as [dev lg script g cb]; simpl in *.
    destruct proto, result as [e|[d|]]; simpl;
      destruct (dev && lg); simpl; try discriminate;
      try match goal with
          | |- context [cb ?x] => destruct (cb x) as [e'|] eqn:Hcb
          end;
      simpl; try discriminate;
      destruct g as [[mp []]|]; simpl; try discriminate;
      intros [= <-]; eauto 8.
Qed.

(** A success callback that throws after a script or a dynamic import has
    delivered the constructor is reported like a failed load: the error
    event and the notification follow the loaded event, and
    [_startLoading] resolves to [null]. *)
Lemma throwing_callback_is_a_load_error (env : Env) (s : string)
    (g : DashGlobal) (ctor : DashConstructor) (e : Thrown) :
  loadScript env s = None ->
  dashjs env = Some g ->
  MediaPlayer g = Some ctor ->
  callback env ctor = Some e ->
  withoutLogs (trace (_startLoading coerceToError env (LibString s))) =
    [loadStart; loaded ctor; CallbackCalled ctor; loadError coerceToError e;
     Notified "error" {| error_message := message (coerceToError e); code := 4;
                         error := Some (coerceToError e) |}] /\
  completion (_startLoading coerceToError env (LibString s)) = Returned None.
Proof.
  intros Hs Hg Hmp Hcb.
  destruct env as [dev lg script dg cb], g as [mp sup]; simpl in *. subst dg mp.
  unfold_loader. rewrite Hs. simpl. rewrite Hcb.
  destruct (dev && lg); simpl; split; reflexivity.
Qed.

(** [loadDASHScript] and [importDASH] called without callbacks (the default
    [{}]) do nothing that can be observed, and their promises resolve. *)
Definition noCallbacks : LoadDASHConstructorCallbacks :=
  {| onLoadStart := None; onLoaded := None; onLoadError := None |}.

Lemma without_callbacks_silent (env : Env) (src : DashLibrary)
    (loader : option JsFunction) :
  trace (loadDASHScript env src noCallbacks) = [] /\
  trace (importDASH env loader noCallbacks) = [] /\
  (exists r, completion (loadDASHScript env src noCallbacks) = Returned r) /\
  (exists r, completion (importDASH env loader noCallbacks) = Returned r).
Proof.
  unfold loadDASHScript, importDASH, noCallbacks, awaitScript, readDashjs,
    callOpt, callOpt0, trace, completion; simpl.
  destruct env as [dev lg script [[[c|] sup]|] cb]; simpl;
    destruct src as [|s|f]; simpl; try destruct (script s); simpl;
    destruct loader as [[c' [] [e'|[d|]]]|]; simpl; repeat split; eauto.
Qed.

(** A function that has a prototype object is taken for the constructor:
    it is never called, so what calling it would give does not matter.
    Any other function is called as a loader, and only what it yields
    matters. *)
Lemma static_import_never_calls (env : Env) (c c' : DashConstructor)
    (result result' : LoaderResult) (proto : Prototype) :
  _startLoading coerceToError env
    (LibFunction {| self := c; prototype := PrototypeObject; call := result |}) =
  _startLoading coerceToError env
    (LibFunction {| self := c; prototype := PrototypeObject; call := result' |}) /\
  (proto <> PrototypeObject ->
   _startLoading coerceToError env
     (LibFunction {| self := c; prototype := proto; call := result |}) =
   _startLoading coerceToError env
     (LibFunction {| self := c'; prototype := proto; call := result |})).
Proof.
  split; [reflexivity|]. intros Hp. destruct proto; [reflexivity|reflexivity|].
  by destruct Hp.
Qed.

(** Logging changes nothing else: without a logger the loader leaves the
    same trace, logs apart, and ends in the same way. *)
Definition withoutLogger (env : Env) : Env :=
  {| DEV := DEV env; logger := false; loadScript := loadScript env;
     dashjs := dashjs env; callback := callback env |}.

Lemma logging_is_transparent (env : Env) (lib : DashLibrary) :
  withoutLogs (trace (_startLoading coerceToError env lib)) =
    trace (_startLoading coerceToError (withoutLogger env) lib) /\
  completion (_startLoading coerceToError env lib) =
    completion (_startLoading coerceToError (withoutLogger env) lib).
Proof.
  destruct lib as [|s|[c proto result]]; unfold_loader.
  - destruct (DEV env), (logger env); split; reflexivity.
  - destruct env as [dev lg script [[mp sup]|] cb]; simpl in *;
      destruct dev, lg, (script s) as [e|]; simpl; try (split; reflexivity);
      destruct mp as [c|]; simpl; try (split; reflexivity);
      destruct (cb c); simpl; try (split; reflexivity);
      destruct sup; split; reflexivity.
  - destruct env as [dev lg script g cb]; simpl in *.
    destruct proto, result as [e|[d|]]; simpl;
      destruct dev, lg; simpl; try (split; reflexivity);
      try destruct (cb c); try destruct (cb d); simpl; try (split; reflexivity);
      destruct g as [[mp []]|]; split; reflexivity.
Qed.

End MoreLoaderFacts.

Lemma resolved_constructor_was_loaded_witness :
  lifecycle messageOf browser cdn =
    [loadStart; loaded "MediaPlayer"; CallbackCalled "MediaPlayer"] /\
  existsb isNotified (trace (_startLoading messageOf browser cdn)) = false /\
  callback browser "MediaPlayer" = None /\
  exists g, dashjs browser = Some g /\ supportsMediaSource g = true.
Proof. apply resolved_constructor_was_loaded. reflexivity. Defined.

Lemma throwing_callback_is_a_load_error_witness :
  withoutLogs (trace (_startLoading messageOf browserThrowingCallback cdn)) =
    [loadStart; loaded "MediaPlayer"; CallbackCalled "MediaPlayer";
     loadError messageOf (ThrownError "setup failed");
     Notified "error" {| error_message := "setup failed"; code := 4;
                         error := Some {| message := "setup failed" |} |}] /\
  completion (_startLoading messageOf browserThrowingCallback cdn) = Returned None.
Proof.
  apply (throwing_callback_is_a_load_error messageOf browserThrowingCallback _
           {| MediaPlayer := Some "MediaPlayer"; supportsMediaSource := true |});
    reflexivity.
Defined.

End DashLoader.

(* ===================================================================== *)
(** * 3. Numbers                                                          *)
(* ===================================================================== *)

(** JavaScript numbers are IEEE 754 binary64 values: the kernel's floats. *)
Module Number.

Local Open Scope Z_scope.

(** The number of an integer literal (exact below [2^53]). *)
Definition ofZ (n : Z) : float := PrimFloat.of_uint63 (Uint63.of_Z n).

(** [floor (|x| * 10^d + 1/2)], computed exactly from mantissa and exponent. *)
Definition scaled (x : float) (d : Z) : Z :=
  match Prim2SF x with
  | S754_finite _ m e =>
      let n := Z.pos m * 10 ^ d in
      if 0 <=? e then n * 2 ^ e
      else (2 * n + 2 ^ (- e)) / 2 ^ (- e + 1)
  | _ => 0
  end.

(** Modelled from the spec: [round(num, decimalPlaces)] of [utils/number.js],
    which is not among the sources.  [num] is rounded to [decimalPlaces]
    decimal places, halves away from zero, and the result is the number
    nearest to that decimal (what [Number(num.toFixed(decimalPlaces))]
    gives).  Exact as long as [|num| * 10^decimalPlaces] stays below
    [2^53]. *)
Definition round (num : float) (decimalPlaces : Z) : float :=
  match Prim2SF num with
  | S754_finite s _ _ =>
      let r := PrimFloat.div (ofZ (scaled num decimalPlaces))
                             (ofZ (10 ^ decimalPlaces)) in
      if s then PrimFloat.opp r else r
  | S754_zero _ => ofZ 0
  | _ => num
  end.

(** [Math.round(x)]: the integer nearest to [x], halves towards plus
    infinity, as an integer. *)
Definition mathRound (x : float) : Z :=
  match Prim2SF x with
  | S754_finite s m e =>
      let p := (if s then Z.neg m else Z.pos m) * 2 ^ Z.max e 0 in
      let q := 2 ^ Z.max (- e) 0 in
      (2 * p + q) / (2 * q)
  | _ => 0
  end.

(** Modelled from the spec: the other usual way to write such a [round],
    [Math.round(num * 10^d) / 10^d].  The sources do not say which one
    [utils/number.js] uses; what is proved of the volume getter below holds
    for both. *)
Definition roundScaling (num : float) (decimalPlaces : Z) : float :=
  let n := mathRound (PrimFloat.mul num (ofZ (10 ^ decimalPlaces))) in
  if n <? 0
  then PrimFloat.opp (PrimFloat.div (ofZ (- n)) (ofZ (10 ^ decimalPlaces)))
  else PrimFloat.div (ofZ n) (ofZ (10 ^ decimalPlaces)).

(** Two numbers with different bits are different. *)
Lemma bits_differ (x y : float) : Prim2SF x <> Prim2SF y -> x <> y.
Proof. intros H E. apply H. by rewrite E. Qed.

End Number.

(* ===================================================================== *)
(** * 4. Slider store                                                     *)
(* ===================================================================== *)

Module SliderStore.

(** What [createSliderStore()] returns; a [writable] is the value it holds,
    the [derived] store is computed from the two it derives from. *)
Record SliderStore := {
  value : float;          (* the current slider value *)
  pointerValue : float;   (* where the pointer points to *)
  dragging : bool;        (* the thumb is being dragged *)
  pointing : bool         (* a pointer is within the slider *)
}.

Definition interactive (s : SliderStore) : bool := dragging s || pointing s.

Definition createSliderStore : SliderStore :=
  {| value := 50%float; pointerValue := 0%float;
     dragging := false; pointing := false |}.

End SliderStore.

(* ===================================================================== *)
(** * 5. Volume slider                                                    *)
(* ===================================================================== *)

Module VolumeSlider.

Import Number.
Local Open Scope float_scope.

(** The events of the inner [<vds-slider>]. *)
Inductive SliderEvent :=
| SliderDragStart
| SliderValueChange (detail : float)
| SliderDragEnd.

(** What [MediaRemoteControl] sends towards the media provider. *)
Inductive MediaRequest :=
| VolumeChangeRequest (volume : float) (trigger : SliderEvent).

(** [VolumeSliderElement]: attributes, properties, context and state. *)
Record VolumeSliderElement := {
  attributes : gmap string string;
  disabled : bool;
  hidden : bool;
  orientation : string;
  label : string;
  step : float;
  keyboardStep : float;
  shiftKeyMultiplier : float;
  mediaVolume : float;      (* context: mediaContext.volume *)
  currentVolume : float     (* state *)
}.

(** The slider together with what it could reach: the volume field of the
    media store and the requests on their way to the provider. *)
Record Player := {
  storeVolume : float;
  slider : VolumeSliderElement;
  requests : list MediaRequest    (* oldest first *)
}.

(** The constructor; [initialValue] is [mediaContext.volume.initialValue]. *)
Definition create (initialValue : float) : VolumeSliderElement :=
  {| attributes := ∅;
     disabled := false; hidden := false;
     orientation := "horizontal"; label := "Media volume slider";
     step := 0.5; keyboardStep := 0.5; shiftKeyMultiplier := 10;
     mediaVolume := initialValue;
     currentVolume := initialValue * 100 |}.

(** [get volume()]. *)
Definition volume (el : VolumeSliderElement) : float :=
  round (currentVolume el / 100) 3.

Definition setCurrentVolume (v : float) (el : VolumeSliderElement) : VolumeSliderElement :=
  {| attributes := attributes el; disabled := disabled el; hidden := hidden el;
     orientation := orientation el; label := label el; step := step el;
     keyboardStep := keyboardStep el; shiftKeyMultiplier := shiftKeyMultiplier el;
     mediaVolume := mediaVolume el; currentVolume := v |}.

Definition setMediaVolume (v : float) (el : VolumeSliderElement) : VolumeSliderElement :=
  {| attributes := attributes el; disabled := disabled el; hidden := hidden el;
     orientation := orientation el; label := label el; step := step el;
     keyboardStep := keyboardStep el; shiftKeyMultiplier := shiftKeyMultiplier el;
     mediaVolume := v; currentVolume := currentVolume el |}.

Definition setAttributes (a : gmap string string) (el : VolumeSliderElement) : VolumeSliderElement :=
  {| attributes := a; disabled := disabled el; hidden := hidden el;
     orientation := orientation el; label := label el; step := step el;
     keyboardStep := keyboardStep el; shiftKeyMultiplier := shiftKeyMultiplier el;
     mediaVolume := mediaVolume el; currentVolume := currentVolume el |}.

(** [update(changedProperties)]. *)
Definition update (changedProperties : list string) (el : VolumeSliderElement)
    : VolumeSliderElement :=
  if bool_decide ("mediaVolume" ∈ changedProperties)
  then setCurrentVolume (mediaVolume el * 100) el
  else el.

(** The volume context delivers a new value: the consumer stores it in
    [mediaVolume] and the element updates with that property changed. *)
Definition contextUpdate (v : float) (el : VolumeSliderElement) : VolumeSliderElement :=
  update ["mediaVolume"] (setMediaVolume v el).

Definition withSlider (f : VolumeSliderElement -> VolumeSliderElement) (p : Player) : Player :=
  {| storeVolume := storeVolume p; slider := f (slider p); requests := requests p |}.

(** [this.remoteControl.changeVolume(volume, event)]. *)
Definition changeVolume (v : float) (trigger : SliderEvent) (p : Player) : Player :=
  {| storeVolume := storeVolume p; slider := slider p;
     requests := requests p ++ [VolumeChangeRequest v trigger] |}.

Definition handleSliderDragStart (p : Player) : Player :=
  withSlider (fun el => setAttributes (<["dragging" := ""]> (attributes el)) el) p.

Definition handleSliderValueChange (event : SliderEvent) (p : Player) : Player :=
  match event with
  | SliderValueChange newVolume =>
      let p := withSlider (setCurrentVolume newVolume) p in
      let mediaVolume := round (newVolume / 100) 3 in
      changeVolume mediaVolume event p
  | _ => p
  end.

Definition handleSliderDragEnd (p : Player) : Player :=
  withSlider (fun el => setAttributes (delete "dragging" (attributes el)) el) p.

(** The listeners of [renderSlider]. *)
Definition handle (p : Player) (event : SliderEvent) : Player :=
  match event with
  | SliderDragStart => handleSliderDragStart p
  | SliderValueChange _ => handleSliderValueChange event p
  | SliderDragEnd => handleSliderDragEnd p
  end.

Definition run (p : Player) (events : list SliderEvent) : Player :=
  fold_left handle events p.

(** Modelled from the spec: the way back, "native event -> Media Store update
    -> re-render".  The provider, which is not among the sources, serves the
    oldest request: the store takes the requested volume and the context
    delivers it to the slider. *)
Definition serveRequest (p : Player) : Player :=
  match requests p with
  | [] => p
  | VolumeChangeRequest v _ :: rest =>
      {| storeVolume := v; slider := contextUpdate v (slider p); requests := rest |}
  end.

(** ** Value changes *)

Lemma handle_keeps_store (p : Player) (event : SliderEvent) :
  storeVolume (handle p event) = storeVolume p /\
  mediaVolume (slider (handle p event)) = mediaVolume (slider p).
Proof. destruct event; split; reflexivity. Qed.

Lemma run_keeps_store (events : list SliderEvent) (p : Player) :
  storeVolume (run p events) = storeVolume p /\
  mediaVolume (slider (run p events)) = mediaVolume (slider p).
Proof.
  revert p. induction events as [|e events IH]; intros p; [by split|].
  simpl. destruct (IH (handle p e)) as [Hs Hm].
  destruct (handle_keeps_store p e) as [Hs' Hm']. split; congruence.
Qed.


(** A value change of 42.5 on a slider at full volume. *)
Example value_change_42_5 :
  let p := {| storeVolume := 1; slider := create 1; requests := [] |} in
  let p' := handle p (SliderValueChange 42.5) in
  storeVolume p' = 1 /\ mediaVolume (slider p') = 1 /\
  currentVolume (slider p') = 42.5 /\
  requests p' = [VolumeChangeRequest 0x1.b333333333333p-2 (SliderValueChange 42.5)] /\
  currentVolume (slider (serveRequest p')) = 42.5 /\
  storeVolume (serveRequest p') = 0x1.b333333333333p-2.   (* 0.425 *)
Proof. vm_compute. repeat split. Qed.

(** ** Round trip of the volume *)

(** [k / 1000]: the volumes with at most three decimal places. *)
Definition thousandth (k : nat) : float := ofZ (Z.of_nat k) / 1000.

Lemma context_update_volume (v : float) (el : VolumeSliderElement) :
  currentVolume (contextUpdate v el) = v * 100 /\
  volume (contextUpdate v el) = round (v * 100 / 100) 3.
Proof. split; reflexivity. Qed.

(** All 1001 volumes at once: both lists evaluate to the same numbers. *)
Lemma thousandths_exact :
  map (fun k => round (thousandth k * 100 / 100) 3) (seq 0 1001) =
  map thousandth (seq 0 1001).
Proof. vm_compute. reflexivity. Qed.

Lemma map_eq_pointwise {A B} (f g : A -> B) (l : list A) :
  map f l = map g l -> forall x, In x l -> f x = g x.
Proof.
  induction l as [|a l IH]; intros H x Hx; [destruct Hx|].
  simpl in H. injection H as Ha Hl.
  destruct Hx as [->|Hx]; [exact Ha|by apply IH].
Qed.

(** C9, as the code has it.  After the volume context delivers [v], the
    slider's [currentVolume] is [v * 100] and its [volume] getter returns
    [round(v * 100 / 100, 3)], both in binary64 arithmetic; for every volume
    [k / 1000] with [k] from 0 to 1000 the getter returns exactly that
    volume. *)
Theorem volume_round_trip (el : VolumeSliderElement) :
  (forall v : float,
     currentVolume (contextUpdate v el) = v * 100 /\
     volume (contextUpdate v el) = round (v * 100 / 100) 3) /\
  (forall k : nat,
     (k <= 1000)%nat ->
     volume (contextUpdate (thousandth k) el) = thousandth k).
Proof.
  split; [intros v; apply context_update_volume|].
  intros k Hk.
  destruct (context_update_volume (thousandth k) el) as [_ ->].
  apply (map_eq_pointwise _ _ _ thousandths_exact k).
  apply in_seq. lia.
Qed.

(** The multiplication by 100 and the division by 100 do not cancel in
    binary64: 0.007 comes back as another number (and is then rounded to
    0.007 again). *)
Example times_100_over_100 :
  thousandth 7 * 100 / 100 <> thousandth 7 /\
  round (thousandth 7 * 100 / 100) 3 = thousandth 7.
Proof.
  split; [|vm_compute; reflexivity].
  apply bits_differ. vm_compute. discriminate.
Qed.

(** With [Math.round(num * 1000) / 1000] for [round] the getter behaves in
    the same way: exact on the 1001 volumes, and 0.002 against 0.001 at the
    volume just below 0.0015. *)
Example round_trip_with_scaling :
  map (fun k => roundScaling (thousandth k * 100 / 100) 3) (seq 0 1001) =
    map thousandth (seq 0 1001) /\
  roundScaling (0x1.89374bc6a7ef9p-10 * 100 / 100) 3 = ofZ 2 / 1000 /\
  roundScaling 0x1.89374bc6a7ef9p-10 3 = ofZ 1 / 1000.
Proof. repeat split; vm_compute; reflexivity. Qed.

(** C9 as it is written fails: for the volume 0.0014999999999999998, the
    number just below 0.0015, [v * 100 / 100] is the number just above
    0.0015; the getter returns 0.002, and [round(v, 3)] is 0.001. *)
Lemma volume_getter_is_not_round_of_volume :
  let v := 0x1.89374bc6a7ef9p-10 in
  PrimFloat.leb 0 v = true /\ PrimFloat.leb v 1 = true /\
  volume (contextUpdate v (create 1)) = ofZ 2 / 1000 /\
  round v 3 = ofZ 1 / 1000 /\
  volume (contextUpdate v (create 1)) <> round v 3.
Proof.
  repeat split; try (vm_compute; reflexivity).
  apply bits_differ. vm_compute. discriminate.
Qed.

(** ** Dragging *)

Lemma run_app (p : Player) (xs ys : list SliderEvent) :
  run p (xs ++ ys) = run (run p xs) ys.
Proof. apply fold_left_app. Qed.

Lemma drag_start_sets (p : Player) :
  attributes (slider (handle p SliderDragStart)) !! "dragging" = Some "".
Proof. simpl. apply lookup_insert_eq. Qed.

Lemma drag_end_removes (p : Player) :
  attributes (slider (handle p SliderDragEnd)) !! "dragging" = None.
Proof. simpl. apply lookup_delete_eq. Qed.

Lemma value_change_keeps_attributes (p : Player) (v : float) :
  attributes (slider (handle p (SliderValueChange v))) = attributes (slider p).
Proof. reflexivity. Qed.

Lemma value_changes_keep_attributes (values : list float) (p : Player) :
  attributes (slider (run p (map SliderValueChange values))) = attributes (slider p).
Proof.
  revert p. induction values as [|v values IH]; intros p; [reflexivity|].
  simpl. rewrite IH. reflexivity.
Qed.

(** C6.  The slider sets its [dragging] attribute on every drag start and
    removes it on every drag end: whatever happened before, the attribute is
    there after a drag start, stays while the value changes, and is gone
    after the drag end.  In a new slider store [dragging] and [pointing]
    are false. *)
Theorem dragging_reset_on_release (p : Player) (before : list SliderEvent)
    (values : list float) :
  attributes (slider (run p (before ++ [SliderDragStart]))) !! "dragging" = Some "" /\
  attributes (slider (run p (before ++ [SliderDragStart] ++ map SliderValueChange values)))
    !! "dragging" = Some "" /\
  attributes (slider (run p (before ++ [SliderDragEnd]))) !! "dragging" = None /\
  attributes (slider (run p (before ++ [SliderDragStart] ++ map SliderValueChange values
                               ++ [SliderDragEnd]))) !! "dragging" = None /\
  SliderStore.dragging SliderStore.createSliderStore = false /\
  SliderStore.pointing SliderStore.createSliderStore = false /\
  SliderStore.interactive SliderStore.createSliderStore = false.
Proof.
  repeat split.
  - rewrite run_app. apply drag_start_sets.
  - rewrite !run_app, value_changes_keep_attributes. apply drag_start_sets.
  - rewrite run_app. apply drag_end_removes.
  - rewrite !run_app. apply drag_end_removes.
Qed.

Example drag_gesture :
  attributes (slider (run {| storeVolume := 1; slider := create 1; requests := [] |}
                        [SliderDragStart; SliderValueChange 30; SliderValueChange 20;
                         SliderDragEnd])) = ∅.
Proof. vm_compute. reflexivity. Qed.

(** ** Further facts about the volume slider *)

(** What an event asks of the provider. *)
Definition requestsOf (event : SliderEvent) : list MediaRequest :=
  match event with
  | SliderValueChange v => [VolumeChangeRequest (round (v / 100) 3) event]
  | _ => []
  end.

(** The value of the last value change, if any. *)
Definition lastValue (events : list SliderEvent) (start : float) : float :=
  fold_left (fun current event =>
               match event with SliderValueChange v => v | _ => current end)
            events start.

(** The drag event that came last: [Some true] for a drag start. *)
Definition lastDrag (events : list SliderEvent) : option bool :=
  fold_left (fun last event =>
               match event with
               | SliderDragStart => Some true
               | SliderDragEnd => Some false
               | SliderValueChange _ => last
               end) events None.

(** Every value change sends exactly one volume request, in the order of
    the changes; drag starts and ends send none.  The slider shows the value
    of the last change. *)
Lemma one_request_per_value_change (events : list SliderEvent) (p : Player) :
  requests (run p events) = requests p ++ flat_map requestsOf events /\
  currentVolume (slider (run p events)) =
    lastValue events (currentVolume (slider p)).
Proof.
  revert p. induction events as [|e events IH]; intros p.
  - simpl. by rewrite app_nil_r.
  - simpl. destruct (IH (handle p e)) as [Hr Hc].
    change (run (handle p e) events) with (fold_left handle events (handle p e)) in *.
    rewrite Hr, Hc. unfold lastValue. simpl.
    destruct e; simpl; rewrite <- ?app_assoc; auto.
Qed.

Lemma lastDrag_from (events : list SliderEvent) (start : option bool) :
  fold_left (fun last event =>
               match event with
               | SliderDragStart => Some true
               | SliderDragEnd => Some false
               | SliderValueChange _ => last
               end) events start =
  match lastDrag events with Some b => Some b | None => start end.
Proof.
  unfold lastDrag. revert start.
  induction events as [|e events IH]; intros start; [reflexivity|].
  simpl. rewrite IH. rewrite (IH (match e with
                                   | SliderDragStart => Some true
                                   | SliderDragEnd => Some false
                                   | SliderValueChange _ => None
                                   end)).
  destruct e; simpl; by destruct (fold_left _ events None).
Qed.

(** The slider events touch nothing of the element but [dragging] and
    [currentVolume]: [dragging] is there exactly when the last drag event
    was a start (value changes from the keyboard never set it), every other
    attribute and every property stays as it is. *)
Lemma slider_events_only_touch_dragging (events : list SliderEvent) (p : Player) :
  attributes (slider (run p events)) !! "dragging" =
    match lastDrag events with
    | Some true => Some ""
    | Some false => None
    | None => attributes (slider p) !! "dragging"
    end /\
  (forall name, name <> "dragging" ->
     attributes (slider (run p events)) !! name = attributes (slider p) !! name) /\
  disabled (slider (run p events)) = disabled (slider p) /\
  hidden (slider (run p events)) = hidden (slider p) /\
  orientation (slider (run p events)) = orientation (slider p) /\
  label (slider (run p events)) = label (slider p) /\
  step (slider (run p events)) = step (slider p) /\
  keyboardStep (slider (run p events)) = keyboardStep (slider p) /\
  shiftKeyMultiplier (slider (run p events)) = shiftKeyMultiplier (slider p).
Proof.
  revert p. induction events as [|e events IH]; intros p.
  - simpl. repeat split; reflexivity.
  - change (run p (e :: events)) with (run (handle p e) events).
    destruct (IH (handle p e)) as (Hd & Ho & H1 & H2 & H3 & H4 & H5 & H6 & H7).
    rewrite Hd, H1, H2, H3, H4, H5, H6, H7.
    split.
    { unfold lastDrag at 2. simpl. rewrite lastDrag_from.
      destruct e; simpl; destruct (lastDrag events) as [[]|]; simpl;
        try reflexivity; [apply lookup_insert_eq|apply lookup_delete_eq]. }
    split.
    { intros name Hn. rewrite (Ho name Hn).
      destruct e; simpl; [by apply lookup_insert_ne|reflexivity|by apply lookup_delete_ne]. }
    destruct e; repeat split; reflexivity.
Qed.

(** [static get parts()], given [SliderElement.parts]. *)
Definition parts (sliderParts : list string) : list string :=
  "slider" :: map (fun part => "slider-" +:+ part) sliderParts.

(** The part names of the volume slider are as many as those of the slider
    plus one, and distinct when those of the slider are. *)
Lemma parts_distinct (sliderParts : list string) :
  length (parts sliderParts) = S (length sliderParts) /\
  (NoDup sliderParts -> NoDup (parts sliderParts)).
Proof.
  unfold parts. split; [simpl; by rewrite length_map|].
  intros Hnd. apply NoDup_cons. split.
  - intros Hin. apply list_elem_of_In, in_map_iff in Hin as (part & Heq & _).
    simpl in Heq. discriminate Heq.
  - apply (NoDup_fmap_2 (String.app "slider-")), Hnd.
Qed.

Lemma parts_distinct_witness :
  NoDup (parts ["track"; "thumb"; "track-fill"]).
Proof. apply parts_distinct. compute_done. Defined.

End VolumeSlider.

(* ===================================================================== *)
(** * 6. ARIA menu                                                        *)
(* ===================================================================== *)

Module AriaMenu.

(** DOM elements are identified by a number. *)
Definition Element := nat.

(** A DOM event: its identity, [event.type] and [event.key]. *)
Record Event := {
  eventId : nat;
  eventType : string;
  key : string
}.

(** [AriaMenuOptions]; an option that is left out is [false] or [None]. *)
Record AriaMenuOptions := {
  type : option string;        (* 'menu' | 'dialog' *)
  portal : bool;
  preventScroll : bool;
  defaultOpen : bool;
  hover : bool;
  submenu : bool;
  noOutSideClick : bool;
  noPlacement : bool;          (* of PopperOptions *)
  closeSelectors : option (list string)   (* selectors.close *)
}.

(** Where a listener listens. *)
Inductive Target :=
| Body
| On (el : Element).

(** What a listener does with the event it gets. *)
Inductive Handler :=
| Press             (* onPress(el, onChange) *)
| Open              (* (e) => onChange(e, true) *)
| Close             (* (e) => onChange(e, false) *)
| TriggerKeydown    (* ArrowDown, or ArrowRight in a submenu: onChange(e, true) *)
| SubmenuKeydown    (* ArrowLeft: onChange(e, false) *)
| StopPropagation.  (* (e) => e.stopPropagation() *)

(** What is put into a [DisposalBin]. *)
Inductive Disposable :=
| WatchPosition                                          (* _popper.watchPosition() *)
| Listener (target : Target) (type : string) (handler : Handler)
| FocusTrap (el : Element)                               (* _focusTrap(el) *)
| CloseOnSelect (closeEl : Element) (type : string)      (* the listeners of closeOnSelect *)
| PointerLeave (el : Element)                            (* the listener of
                                                            closeSubmenuOnPointerLeave *)
| ClearSubmenuTimeout                                    (* () => window.clearTimeout(id) *)
| Unsubscribe.                                           (* of activeMenu.subscribe *)

(** Callbacks that were handed to the browser or to the popper and have not
    run yet. *)
Inductive Task :=
| SetIsMenuOpen (open : bool)          (* requestAnimationFrame(() => _isMenuOpen.set(open)) *)
| ShowCallback (event : option Event)  (* the callback given to _popper.show *)
| HideCallback (event : option Event)  (* the callback given to _popper.hide *)
| MenuMounted (el : Element)           (* the requestAnimationFrame of menu(el) *)
| SubmenuTimeout.                      (* the setTimeout of closeSubmenuOnPointerLeave *)

#[global] Instance Event_eq_dec : EqDecision Event.
Proof. solve_decision. Defined.
#[global] Instance Target_eq_dec : EqDecision Target.
Proof. solve_decision. Defined.
#[global] Instance Handler_eq_dec : EqDecision Handler.
Proof. solve_decision. Defined.
#[global] Instance Task_eq_dec : EqDecision Task.
Proof. solve_decision. Defined.
#[global] Instance Disposable_eq_dec : EqDecision Disposable.
Proof. solve_decision. Defined.

(** The variables [createAriaMenu] closes over, and the bins of the two
    actions. *)
Record Closure := {
  _id : nat;
  _triggerEl : option Element;
  _menuEl : option Element;
  _arrowEl : option Element;
  _openDisposal : list Disposable;
  _isMenuOpen : bool;
  triggerDisposal : list Disposable;   (* [disposal] of menuTrigger(el) *)
  menuDisposal : list Disposable       (* [disposal] of menu(el) *)
}.

(** The document, as far as the menu reads and writes it. *)
Record Document := {
  attributes : gmap (Element * string) string;   (* get/set/hasAttribute *)
  styles : gmap (Element * string) string;       (* el.style *)
  parentElement : gmap Element Element;
  bodyChildren : list Element;                   (* document.body.append(el) *)
  closeTargets : option (list Element);          (* what querySelectorAll answers
                                                    for selectors.close; [None]:
                                                    the selectors do not parse *)
  activeElement : option Element;                (* the element that has focus *)
  stopped : gset nat;                            (* events after stopPropagation() *)
  dispatched : list (Element * string);          (* dispatchEvent(new Event(type)) *)
  scrollbar : list bool                          (* hideDocumentScrollbar(hidden) *)
}.

Record World := {
  id : nat;                        (* let id = 0 *)
  activeMenu : option Element;     (* the activeMenu store *)
  closure : Closure;
  doc : Document;
  tasks : list Task                (* oldest first *)
}.

(** ** Updating the records *)

Definition withClosure (f : Closure -> Closure) (w : World) : World :=
  {| id := id w; activeMenu := activeMenu w; closure := f (closure w);
     doc := doc w; tasks := tasks w |}.
Definition withDoc (f : Document -> Document) (w : World) : World :=
  {| id := id w; activeMenu := activeMenu w; closure := closure w;
     doc := f (doc w); tasks := tasks w |}.
Definition withTasks (f : list Task -> list Task) (w : World) : World :=
  {| id := id w; activeMenu := activeMenu w; closure := closure w;
     doc := doc w; tasks := f (tasks w) |}.
Definition setActiveMenu (m : option Element) (w : World) : World :=
  {| id := id w; activeMenu := m; closure := closure w; doc := doc w; tasks := tasks w |}.

Definition setTriggerEl (e : option Element) (c : Closure) : Closure :=
  {| _id := _id c; _triggerEl := e; _menuEl := _menuEl c; _arrowEl := _arrowEl c;
     _openDisposal := _openDisposal c; _isMenuOpen := _isMenuOpen c;
     triggerDisposal := triggerDisposal c; menuDisposal := menuDisposal c |}.
Definition setMenuEl (e : option Element) (c : Closure) : Closure :=
  {| _id := _id c; _triggerEl := _triggerEl c; _menuEl := e; _arrowEl := _arrowEl c;
     _openDisposal := _openDisposal c; _isMenuOpen := _isMenuOpen c;
     triggerDisposal := triggerDisposal c; menuDisposal := menuDisposal c |}.
Definition setArrowEl (e : option Element) (c : Closure) : Closure :=
  {| _id := _id c; _triggerEl := _triggerEl c; _menuEl := _menuEl c; _arrowEl := e;
     _openDisposal := _openDisposal c; _isMenuOpen := _isMenuOpen c;
     triggerDisposal := triggerDisposal c; menuDisposal := menuDisposal c |}.
Definition setOpenDisposal (d : list Disposable) (c : Closure) : Closure :=
  {| _id := _id c; _triggerEl := _triggerEl c; _menuEl := _menuEl c;
     _arrowEl := _arrowEl c; _openDisposal := d; _isMenuOpen := _isMenuOpen c;
     triggerDisposal := triggerDisposal c; menuDisposal := menuDisposal c |}.
Definition setIsMenuOpen (b : bool) (c : Closure) : Closure :=
  {| _id := _id c; _triggerEl := _triggerEl c; _menuEl := _menuEl c;
     _arrowEl := _arrowEl c; _openDisposal := _openDisposal c; _isMenuOpen := b;
     triggerDisposal := triggerDisposal c; menuDisposal := menuDisposal c |}.
Definition setTriggerDisposal (d : list Disposable) (c : Closure) : Closure :=
  {| _id := _id c; _triggerEl := _triggerEl c; _menuEl := _menuEl c;
     _arrowEl := _arrowEl c; _openDisposal := _openDisposal c;
     _isMenuOpen := _isMenuOpen c;
     triggerDisposal := d; menuDisposal := menuDisposal c |}.
Definition setMenuDisposal (d : list Disposable) (c : Closure) : Closure :=
  {| _id := _id c; _triggerEl := _triggerEl c; _menuEl := _menuEl c;
     _arrowEl := _arrowEl c; _openDisposal := _openDisposal c;
     _isMenuOpen := _isMenuOpen c;
     triggerDisposal := triggerDisposal c; menuDisposal := d |}.

Definition setAttributes (a : gmap (Element * string) string) (d : Document) : Document :=
  {| attributes := a; styles := styles d; parentElement := parentElement d;
     bodyChildren := bodyChildren d; closeTargets := closeTargets d;
     activeElement := activeElement d; stopped := stopped d;
     dispatched := dispatched d; scrollbar := scrollbar d |}.
Definition setStyles (s : gmap (Element * string) string) (d : Document) : Document :=
  {| attributes := attributes d; styles := s; parentElement := parentElement d;
     bodyChildren := bodyChildren d; closeTargets := closeTargets d;
     activeElement := activeElement d; stopped := stopped d;
     dispatched := dispatched d; scrollbar := scrollbar d |}.
Definition appendToBody (el : Element) (d : Document) : Document :=
  {| attributes := attributes d; styles := styles d;
     parentElement := delete el (parentElement d);
     bodyChildren := bodyChildren d ++ [el]; closeTargets := closeTargets d;
     activeElement := activeElement d; stopped := stopped d;
     dispatched := dispatched d; scrollbar := scrollbar d |}.
Definition setActiveElement (e : option Element) (d : Document) : Document :=
  {| attributes := attributes d; styles := styles d; parentElement := parentElement d;
     bodyChildren := bodyChildren d; closeTargets := closeTargets d;
     activeElement := e; stopped := stopped d;
     dispatched := dispatched d; scrollbar := scrollbar d |}.
Definition setStopped (s : gset nat) (d : Document) : Document :=
  {| attributes := attributes d; styles := styles d; parentElement := parentElement d;
     bodyChildren := bodyChildren d; closeTargets := closeTargets d;
     activeElement := activeElement d; stopped := s;
     dispatched := dispatched d; scrollbar := scrollbar d |}.
Definition setDispatched (l : list (Element * string)) (d : Document) : Document :=
  {| attributes := attributes d; styles := styles d; parentElement := parentElement d;
     bodyChildren := bodyChildren d; closeTargets := closeTargets d;
     activeElement := activeElement d; stopped := stopped d;
     dispatched := l; scrollbar := scrollbar d |}.
Definition setScrollbar (l : list bool) (d : Document) : Document :=
  {| attributes := attributes d; styles := styles d; parentElement := parentElement d;
     bodyChildren := bodyChildren d; closeTargets := closeTargets d;
     activeElement := activeElement d; stopped := stopped d;
     dispatched := dispatched d; scrollbar := l |}.

(** ** The document *)

Definition getAttribute (el : Element) (name : string) (w : World) : option string :=
  attributes (doc w) !! (el, name).
Definition hasAttribute (el : Element) (name : string) (w : World) : bool :=
  bool_decide (is_Some (getAttribute el name w)).
Definition setAttribute (el : Element) (name value : string) (w : World) : World :=
  withDoc (fun d => setAttributes (<[(el, name) := value]> (attributes d)) d) w.
Definition getStyle (el : Element) (property : string) (w : World) : option string :=
  styles (doc w) !! (el, property).
Definition setStyle (el : Element) (property value : string) (w : World) : World :=
  withDoc (fun d => setStyles (<[(el, property) := value]> (styles d)) d) w.
(** [el.focus()]; trigger and menu can take the focus (a button, and
    [tabindex="-1"]). *)
Definition focus (el : Element) (w : World) : World :=
  withDoc (setActiveElement (Some el)) w.
Definition dispatchEvent (el : Element) (type : string) (w : World) : World :=
  withDoc (fun d => setDispatched (dispatched d ++ [(el, type)]) d) w.
(** [event?.stopPropagation()]. *)
Definition stopPropagation (event : option Event) (w : World) : World :=
  match event with
  | Some e => withDoc (fun d => setStopped ({[eventId e]} ∪ stopped d) d) w
  | None => w
  end.
Definition requestAnimationFrame (t : Task) (w : World) : World :=
  withTasks (fun ts => ts ++ [t]) w.
Definition addOpenDisposal (x : Disposable) (w : World) : World :=
  withClosure (fun c => setOpenDisposal (_openDisposal c ++ [x]) c) w.

(** [String(b)]. *)
Definition jsString (b : bool) : string := if b then "true" else "false".

(** Modelled from the spec: [ariaBool] of [utils/aria], which is not among
    the sources: the value of a boolean ARIA attribute. *)
Definition ariaBool (b : bool) : string := if b then "true" else "false".

(** Modelled from the spec: [isKeyboardEvent] of [utils/keyboard], which is
    not among the sources: there is an event and its type starts with
    [key]. *)
Definition isKeyboardEvent (event : option Event) : bool :=
  match event with
  | Some e => String.prefix "key" (eventType e)
  | None => false
  end.

(** Modelled from the spec: [hideDocumentScrollbar] of [utils/scroll], which
    is not among the sources; the calls are recorded. *)
Definition hideDocumentScrollbar (hidden : bool) (w : World) : World :=
  withDoc (fun d => setScrollbar (scrollbar d ++ [hidden]) d) w.

(** The nearest ancestor with the role [menu]:
    [while (parent && parent.getAttribute('role') !== 'menu')
       parent = parent.parentElement]. *)
Fixpoint findMenuAncestor (fuel : nat) (parent : option Element) (w : World)
    : option Element :=
  match fuel, parent with
  | S n, Some p =>
      if bool_decide (getAttribute p "role" w = Some "menu") then Some p
      else findMenuAncestor n (parentElement (doc w) !! p) w
  | _, _ => None
  end.

(** [el.contains(other)]. *)
Fixpoint isAncestor (fuel : nat) (el : Element) (other : option Element) (w : World)
    : bool :=
  match fuel, other with
  | S n, Some o =>
      bool_decide (o = el) || isAncestor n el (parentElement (doc w) !! o) w
  | _, _ => false
  end.
Definition contains (el other : Element) (w : World) : bool :=
  isAncestor (S (size (parentElement (doc w)))) el (Some other) w.

(** [_menuEl.querySelectorAll(selector)]: a [SyntaxError] ([None]) for a
    selector that does not parse; the empty string never does, for the
    selectors of the menu the document has the answer. *)
Definition querySelectorAll (selector : string) (w : World) : option (list Element) :=
  if String.eqb selector "" then None else closeTargets (doc w).

Definition triggerId (n : nat) : string := "aria-menu-trigger-" ++ pretty n.
Definition menuId (n : nat) : string := "aria-menu-" ++ pretty n.

Section Menu.

Variable options : AriaMenuOptions.

(** [createAriaMenu(options)]: [_id = ++id], and the closure is set up. *)
Definition createAriaMenu (w : World) : World :=
  {| id := S (id w);
     activeMenu := activeMenu w;
     closure := {| _id := S (id w); _triggerEl := None; _menuEl := None;
                   _arrowEl := None; _openDisposal := [];
                   _isMenuOpen := defaultOpen options;
                   triggerDisposal := []; menuDisposal := [] |};
     doc := doc w;
     tasks := tasks w |}.

(** Modelled from the spec: the popper of [./popper], which is not among the
    sources.  [_popper.show(event, callback)] and
    [_popper.hide(event, callback)] keep the callback and call it later. *)
Definition onShow (event : option Event) (w : World) : World :=
  withTasks (fun ts => ts ++ [ShowCallback event]) w.
Definition onHide (event : option Event) (w : World) : World :=
  withTasks (fun ts => ts ++ [HideCallback event]) w.

(** [_menuEl?.getAttribute('aria-hidden') == String(!open)]. *)
Definition alreadyThere (open : bool) (w : World) : bool :=
  match _menuEl (closure w) with
  | Some m => bool_decide (getAttribute m "aria-hidden" w = Some (jsString (negb open)))
  | None => false
  end.

Definition onChange (event : option Event) (force : option bool) (w : World) : World :=
  let w := stopPropagation event w in
  let open := match force with Some f => f | None => negb (_isMenuOpen (closure w)) end in
  if alreadyThere open w then w
  else
    let w := match _triggerEl (closure w) with
             | Some t => setAttribute t "aria-expanded" (ariaBool open) w
             | None => w
             end in
    let w := match _menuEl (closure w) with
             | Some m => setAttribute m "aria-hidden" (ariaBool (negb open)) w
             | None => w
             end in
    let w := if preventScroll options then hideDocumentScrollbar open w else w in
    let w := requestAnimationFrame (SetIsMenuOpen open) w in
    if negb open then onHide event w else onShow event w.

Definition openMenu (event : option Event) (w : World) : World :=
  onChange event (Some true) w.
Definition closeMenu (event : option Event) (w : World) : World :=
  onChange event (Some false) w.

(** [closeOnSelect()]; [None] when [querySelectorAll] throws. *)
Definition closeOnSelect (w : World) : option World :=
  match _menuEl (closure w), closeSelectors options with
  | Some _, Some close =>
      match querySelectorAll (String.concat "," close) w with
      | Some closeTargets =>
          Some (fold_left
                  (fun w closeEl =>
                     addOpenDisposal (CloseOnSelect closeEl "pointerup")
                       (addOpenDisposal (CloseOnSelect closeEl "keydown") w))
                  closeTargets w)
      | None => None
      end
  | _, _ => Some w
  end.

(** [closeSubmenuOnPointerLeave()]. *)
Definition closeSubmenuOnPointerLeave (w : World) : World :=
  if submenu options
  then addOpenDisposal ClearSubmenuTimeout
         (withTasks (fun ts => ts ++ [SubmenuTimeout]) w)
  else w.

(** The callback [onShow] gives to the popper.  When [closeOnSelect] throws,
    the rest of the callback does not run. *)
Definition shown (event : option Event) (w : World) : World :=
  let w := if noPlacement options then w else addOpenDisposal WatchPosition w in
  let w := if noOutSideClick options then w
           else addOpenDisposal (Listener Body "pointerup" Close) w in
  match closeOnSelect w with
  | None => w
  | Some w =>
      let w := closeSubmenuOnPointerLeave w in
      let w := match _menuEl (closure w) with
               | Some m =>
                   let w := setStyle m "pointer-events" "" w in
                   let w := dispatchEvent m "aria-open" w in
                   if isKeyboardEvent event
                   then addOpenDisposal (FocusTrap m) (focus m w)
                   else w
               | None => w
               end in
      setActiveMenu (_menuEl (closure w)) w
  end.

(** The show callback stops at [closeOnSelect]: there is a menu element and
    close selectors that [querySelectorAll] does not take. *)
Definition showAborts (w : World) : bool :=
  match _menuEl (closure w), closeSelectors options with
  | Some _, Some close =>
      negb (bool_decide (is_Some (querySelectorAll (String.concat "," close) w)))
  | _, _ => false
  end.

(** [_openDisposal.dispose()]: the bin is emptied; clearing the timeout
    removes the timer if it has not fired. *)
Definition disposeOpen (w : World) : World :=
  let w := if bool_decide (ClearSubmenuTimeout ∈ _openDisposal (closure w))
           then withTasks (List.filter (fun t => negb (bool_decide (t = SubmenuTimeout)))) w
           else w in
  withClosure (setOpenDisposal []) w.

(** The callback [onHide] gives to the popper. *)
Definition hidden (event : option Event) (w : World) : World :=
  let w := disposeOpen w in
  let w := if isKeyboardEvent event
           then match _triggerEl (closure w) with Some t => focus t w | None => w end
           else w in
  let w := match _menuEl (closure w) with
           | Some m => dispatchEvent m "aria-close" (setStyle m "pointer-events" "none" w)
           | None => w
           end in
  if bool_decide (activeMenu w = _menuEl (closure w)) then setActiveMenu None w else w.

(** [menuTrigger(el)]. *)
Definition menuTrigger (el : Element) (w : World) : World :=
  let w := setAttribute el "id" (triggerId (_id (closure w))) w in
  let w := if hasAttribute el "role" w then w else setAttribute el "role" "button" w in
  let w := setAttribute el "aria-controls" (menuId (_id (closure w))) w in
  let w := setAttribute el "aria-expanded" "false" w in
  let w := setAttribute el "aria-haspopup" (default "menu" (type options)) w in
  let w := withClosure (setTriggerEl (Some el)) w in
  withClosure
    (setTriggerDisposal
       ([Listener (On el) "press" Press]
        ++ (if hover options then [Listener (On el) "pointerenter" Open] else [])
        ++ [Listener (On el) "keydown" TriggerKeydown])) w.

(** The subscriber of [menu(el)]:
    [(current) => { if (current && el !== current && !el.contains(current))
       onChange(undefined, false) }]. *)
Definition onActiveMenu (el : Element) (current : option Element) (w : World) : World :=
  match current with
  | Some c =>
      if negb (bool_decide (el = c)) && negb (contains el c w)
      then onChange None (Some false) w
      else w
  | None => w
  end.

(** [menu(el)]; subscribing to the store calls the subscriber at once. *)
Definition menu (el : Element) (w : World) : World :=
  let w := withClosure (setMenuEl (Some el)) w in
  let w := if portal options then withDoc (appendToBody el) w
           else if noPlacement options then w
           else setStyle el "position" "absolute" w in
  let w := setStyle el "pointer-events" "none" w in
  let w := setStyle el "display" "none" w in
  let w := setAttribute el "id" (menuId (_id (closure w))) w in
  let w := setAttribute el "role" "menu" w in
  let w := setAttribute el "tabindex" "-1" w in
  let w := setAttribute el "aria-hidden" "true" w in
  let w := setAttribute el "aria-describedby" (triggerId (_id (closure w))) w in
  let w := withClosure
             (setMenuDisposal
                ((if hover options && negb (submenu options)
                  then [Listener (On el) "pointerleave" Close] else [])
                 ++ (if submenu options
                     then [Listener (On el) "keydown" SubmenuKeydown] else [])
                 ++ [Listener (On el) "click" StopPropagation;
                     Listener (On el) "pointerup" StopPropagation]
                 ++ (if noOutSideClick options then [] else [Unsubscribe]))) w in
  let w := if noOutSideClick options then w else onActiveMenu el (activeMenu w) w in
  requestAnimationFrame (MenuMounted el) w.

(** [menuArrow(el)]. *)
Definition menuArrow (el : Element) (w : World) : World :=
  withClosure (setArrowEl (Some el)) w.

(** The animation frame callback of [menu(el)]. *)
Definition mounted (el : Element) (w : World) : World :=
  let parent :=
    findMenuAncestor (S (size (parentElement (doc w))))
      (parentElement (doc w) !! el) w in
  let w := match parent with
           | Some p =>
               withClosure (fun c => setMenuDisposal
                                    (menuDisposal c ++ [Listener (On p) "aria-close" Close]) c) w
           | None => w
           end in
  if defaultOpen options then onChange None (Some true) w else w.

(** [destroy()] of the two actions. *)
Definition destroyTrigger (w : World) : World :=
  let w := if _isMenuOpen (closure w) && preventScroll options
           then hideDocumentScrollbar false w else w in
  let w := disposeOpen w in
  withClosure (fun c => setTriggerEl None (setTriggerDisposal [] c)) w.
Definition destroyMenu (w : World) : World :=
  let w := disposeOpen w in
  withClosure (fun c => setMenuEl None (setMenuDisposal [] c)) w.

(** Running a callback that was waiting. *)
Definition perform (t : Task) (w : World) : World :=
  match t with
  | SetIsMenuOpen open => withClosure (setIsMenuOpen open) w
  | ShowCallback event => shown event w
  | HideCallback event => hidden event w
  | MenuMounted el => mounted el w
  | SubmenuTimeout =>
      match _menuEl (closure w) with
      | Some m => addOpenDisposal (PointerLeave m) w
      | None => w
      end
  end.

(** The oldest waiting callback runs. *)
Definition runNext (w : World) : World :=
  match tasks w with
  | [] => w
  | t :: rest => perform t (withTasks (fun _ => rest) w)
  end.

Fixpoint runAll (fuel : nat) (w : World) : World :=
  match fuel with
  | 0 => w
  | S n => match tasks w with [] => w | _ => runAll n (runNext w) end
  end.

(** A listener gets an event. *)
Definition fire (h : Handler) (e : Event) (w : World) : World :=
  match h with
  | Press => onChange (Some e) None w
  | Open => onChange (Some e) (Some true) w
  | Close => onChange (Some e) (Some false) w
  | TriggerKeydown =>
      let w := if negb (submenu options) && String.eqb (key e) "ArrowDown"
               then onChange (Some e) (Some true) w else w in
      if submenu options && String.eqb (key e) "ArrowRight"
      then onChange (Some e) (Some true) w else w
  | SubmenuKeydown =>
      if String.eqb (key e) "ArrowLeft" then onChange (Some e) (Some false) w else w
  | StopPropagation => stopPropagation (Some e) w
  end.

(** Modelled from the spec: the focus trap of [./focus-trap], which is not
    among the sources, "constraining keyboard focus within an open overlay".
    While it is installed, the Escape key reaches
    [onEscape(event) { onChange(event, false) }]. *)
Definition trapInstalled (w : World) : bool :=
  match _menuEl (closure w) with
  | Some m => bool_decide (FocusTrap m ∈ _openDisposal (closure w))
  | None => false
  end.
Definition escape (e : Event) (w : World) : World :=
  if trapInstalled w then onChange (Some e) (Some false) w else w.

(** The overlay is open: the menu element is not hidden. *)
Definition isOpen (w : World) : bool :=
  match _menuEl (closure w) with
  | Some m => bool_decide (getAttribute m "aria-hidden" w = Some "false")
  | None => false
  end.

End Menu.

(** A page on which nothing has happened yet. *)
Definition emptyDocument : Document :=
  {| attributes := ∅; styles := ∅; parentElement := ∅; bodyChildren := [];
     closeTargets := Some []; activeElement := None; stopped := ∅;
     dispatched := []; scrollbar := [] |}.
Definition emptyPage : World :=
  {| id := 0; activeMenu := None;
     closure := {| _id := 0; _triggerEl := None; _menuEl := None;
                   _arrowEl := None; _openDisposal := []; _isMenuOpen := false;
                   triggerDisposal := []; menuDisposal := [] |};
     doc := emptyDocument; tasks := [] |}.

Definition defaults : AriaMenuOptions :=
  {| type := None; portal := false; preventScroll := false; defaultOpen := false;
     hover := false; submenu := false; noOutSideClick := false;
     noPlacement := false; closeSelectors := None |}.

(** ** Facts about the document *)

Lemma getAttribute_setAttribute (el el' : Element) (name name' value : string) (w : World) :
  getAttribute el' name' (setAttribute el name value w) =
  if decide ((el, name) = (el', name')) then Some value else getAttribute el' name' w.
Proof. unfold getAttribute, setAttribute. simpl. apply lookup_insert. Qed.

Lemma getAttribute_set_eq (el : Element) (name value : string) (w : World) :
  getAttribute el name (setAttribute el name value w) = Some value.
Proof. rewrite getAttribute_setAttribute. by rewrite decide_True. Qed.

Lemma getAttribute_set_ne (el el' : Element) (name name' value : string) (w : World) :
  (el, name) <> (el', name') ->
  getAttribute el' name' (setAttribute el name value w) = getAttribute el' name' w.
Proof. intros H. rewrite getAttribute_setAttribute. by rewrite decide_False. Qed.

(** A decimal numeral does not start with the letter [t]. *)
Lemma pretty_N_go_not_t (x : N) (s rest : string) :
  s <> String "t"%char rest -> pretty_N_go x s <> String "t"%char rest.
Proof.
  revert s. induction (N.lt_wf_0 x) as [x _ IH]; intros s Hs.
  destruct (decide (x = 0%N)) as [->|Hx]; [exact Hs|].
  rewrite pretty_N_go_step by lia.
  apply IH; [apply N.div_lt; lia|].
  unfold pretty_N_char. repeat case_match; discriminate.
Qed.

Lemma pretty_nat_not_t (n : nat) (rest : string) : pretty n <> String "t"%char rest.
Proof.
  unfold pretty, pretty_nat, pretty, pretty_N.
  case_decide; [discriminate|]. by apply pretty_N_go_not_t.
Qed.

Lemma triggerId_menuId (n m : nat) : triggerId n <> menuId m.
Proof.
  unfold triggerId, menuId. intros H.
  change ("aria-menu-trigger-" +:+ pretty n)
    with ("aria-menu-" +:+ String "t"%char ("rigger-" +:+ pretty n)) in H.
  apply (inj (String.app "aria-menu-")) in H.
  symmetry in H. by apply pretty_nat_not_t in H.
Qed.

Lemma triggerId_inj (n m : nat) : triggerId n = triggerId m -> n = m.
Proof.
  unfold triggerId. intros H.
  apply (inj (String.app "aria-menu-trigger-")) in H. by apply (inj pretty).
Qed.

Lemma menuId_inj (n m : nat) : menuId n = menuId m -> n = m.
Proof.
  unfold menuId. intros H.
  apply (inj (String.app "aria-menu-")) in H. by apply (inj pretty).
Qed.

(** Takes a world apart into its fields. *)
Ltac open_world w :=
  destruct w as [i am [cid tr me ar od io td md] [at_ st pa bo cl ae sp di sc] ts];
  simpl in *.

(** ** Opening and closing twice *)

(** The state [onChange] is asked for. *)
Definition requested (force : option bool) (w : World) : bool :=
  match force with Some f => f | None => negb (_isMenuOpen (closure w)) end.

Lemma alreadyThere_stopPropagation (open : bool) (event : option Event) (w : World) :
  alreadyThere open (stopPropagation event w) = alreadyThere open w.
Proof. by destruct event. Qed.

(** When the guard of [onChange] holds, only the event is touched. *)
Lemma onChange_guard (options : AriaMenuOptions) (event : option Event)
    (force : option bool) (w : World) :
  alreadyThere (requested force w) w = true ->
  onChange options event force w = stopPropagation event w.
Proof.
  intros H. unfold onChange.
  replace (match force with
           | Some f => f
           | None => negb (_isMenuOpen (closure (stopPropagation event w)))
           end) with (requested force w) by (by destruct event, force).
  by rewrite alreadyThere_stopPropagation, H.
Qed.

Lemma stopPropagation_frame (event : option Event) (w : World) :
  id (stopPropagation event w) = id w /\
  activeMenu (stopPropagation event w) = activeMenu w /\
  closure (stopPropagation event w) = closure w /\
  tasks (stopPropagation event w) = tasks w /\
  attributes (doc (stopPropagation event w)) = attributes (doc w) /\
  styles (doc (stopPropagation event w)) = styles (doc w) /\
  activeElement (doc (stopPropagation event w)) = activeElement (doc w) /\
  dispatched (doc (stopPropagation event w)) = dispatched (doc w) /\
  scrollbar (doc (stopPropagation event w)) = scrollbar (doc w).
Proof. by destruct event. Qed.

Lemma stopPropagation_again (e : Event) (w : World) :
  eventId e ∈ stopped (doc w) -> stopPropagation (Some e) w = w.
Proof.
  intros H. destruct w as [i a c d t], d as [at_ st pa bo cl ac sp di sc].
  unfold stopPropagation, withDoc, setStopped; simpl in *.
  do 2 f_equal. apply subseteq_union_1_L. by apply singleton_subseteq_l.
Qed.

(** After [onChange] with a forced state the guard holds for that state, as
    long as there is a menu element. *)
Lemma onChange_reaches (options : AriaMenuOptions) (event : option Event)
    (open : bool) (w : World) (m : Element) :
  _menuEl (closure w) = Some m ->
  alreadyThere open (onChange options event (Some open) w) = true.
Proof.
  intros Hm. unfold onChange.
  destruct (alreadyThere open (stopPropagation event w)) eqn:Hg; [exact Hg|].
  assert (Hm' : _menuEl (closure (stopPropagation event w)) = Some m)
    by (by destruct event).
  revert Hm'. generalize (stopPropagation event w). clear. intros w Hm.
  open_world w. subst me. unfold alreadyThere.
  destruct open, tr, (preventScroll options); simpl;
    apply bool_decide_eq_true; unfold getAttribute; simpl;
    apply lookup_insert_eq.
Qed.

Lemma onChange_keeps_menuEl (options : AriaMenuOptions) (event : option Event)
    (force : option bool) (w : World) :
  _menuEl (closure (onChange options event force w)) = _menuEl (closure w).
Proof.
  unfold onChange.
  destruct (alreadyThere _ _); [by destruct event|].
  open_world w.
  destruct event, force as [[]|], io, tr, me, (preventScroll options);
    reflexivity.
Qed.

Lemma onChange_stops (options : AriaMenuOptions) (e : Event)
    (force : option bool) (w : World) :
  eventId e ∈ stopped (doc (onChange options (Some e) force w)).
Proof.
  unfold onChange.
  destruct (alreadyThere _ _); [simpl; set_solver|].
  open_world w.
  destruct force as [[]|], io, tr, me, (preventScroll options); simpl;
    set_solver.
Qed.

Lemma onChange_twice (options : AriaMenuOptions) (first second : option Event)
    (open : bool) (w : World) (m : Element) :
  _menuEl (closure w) = Some m ->
  onChange options second (Some open) (onChange options first (Some open) w) =
  stopPropagation second (onChange options first (Some open) w).
Proof.
  intros Hm. apply onChange_guard. simpl. by eapply onChange_reaches.
Qed.

(** C10, as the code has it.  When [onChange] is called while [aria-hidden]
    of the menu element already says what is asked for, it stops the
    propagation of its event and returns: attributes, styles, focus, the
    scrollbar and the waiting callbacks (and with them the show and hide
    sequence) are as before.  So, once the menu element is attached, a
    second [openMenu] (or [closeMenu]) in succession changes nothing but the
    propagation of its event, and with the same event it changes nothing at
    all. *)
Theorem open_close_idempotent (options : AriaMenuOptions) (w : World)
    (m : Element) (Hm : _menuEl (closure w) = Some m) :
  (forall event force,
     alreadyThere (requested force w) w = true ->
     onChange options event force w = stopPropagation event w /\
     closure (onChange options event force w) = closure w /\
     tasks (onChange options event force w) = tasks w /\
     attributes (doc (onChange options event force w)) = attributes (doc w) /\
     styles (doc (onChange options event force w)) = styles (doc w) /\
     scrollbar (doc (onChange options event force w)) = scrollbar (doc w)) /\
  (forall first second,
     openMenu options second (openMenu options first w) =
     stopPropagation second (openMenu options first w)) /\
  (forall first second,
     closeMenu options second (closeMenu options first w) =
     stopPropagation second (closeMenu options first w)) /\
  (forall event,
     openMenu options event (openMenu options event w) = openMenu options event w) /\
  (forall event,
     closeMenu options event (closeMenu options event w) = closeMenu options event w).
Proof.
  split.
  { intros event force Hg. rewrite (onChange_guard _ _ _ _ Hg).
    split; [reflexivity|]. pose proof (stopPropagation_frame event w). tauto. }
  split; [intros; by eapply onChange_twice|].
  split; [intros; by eapply onChange_twice|].
  split; intros event; unfold openMenu, closeMenu;
    rewrite (onChange_twice _ _ _ _ _ m Hm);
    (destruct event as [e|]; [|reflexivity]);
    apply stopPropagation_again, onChange_stops.
Qed.

(** Without a menu element the guard never holds: the second [openMenu]
    goes through the whole transition again. *)
Example open_twice_unattached :
  tasks (openMenu defaults None (openMenu defaults None (createAriaMenu defaults emptyPage))) =
  [SetIsMenuOpen true; ShowCallback None; SetIsMenuOpen true; ShowCallback None] /\
  tasks (openMenu defaults None (createAriaMenu defaults emptyPage)) =
  [SetIsMenuOpen true; ShowCallback None].
Proof. split; reflexivity. Qed.

(** C10 as it is written fails before the menu element is attached: two
    calls of [openMenu] ask the popper to show twice, one call asks once. *)
Lemma open_twice_is_not_open_once :
  openMenu defaults None (openMenu defaults None (createAriaMenu defaults emptyPage)) <>
  openMenu defaults None (createAriaMenu defaults emptyPage).
Proof.
  intros H. apply (f_equal (fun w => length (tasks w))) in H.
  vm_compute in H. discriminate H.
Qed.

(** ** The attributes set by the two actions *)

Lemma onActiveMenu_hidden (options : AriaMenuOptions) (el : Element)
    (current : option Element) (w : World) :
  _menuEl (closure w) = Some el ->
  getAttribute el "aria-hidden" w = Some "true" ->
  onActiveMenu options el current w = w.
Proof.
  intros Hm Hh. unfold onActiveMenu.
  destruct current as [c|]; [|reflexivity].
  destruct (negb (bool_decide (el = c)) && negb (contains el c w)); [|reflexivity].
  apply (onChange_guard options None (Some false)).
  unfold alreadyThere, requested. rewrite Hm, Hh. by apply bool_decide_eq_true.
Qed.

Lemma menuTrigger_attributes (options : AriaMenuOptions) (el : Element) (w : World) :
  getAttribute el "id" (menuTrigger options el w) = Some (triggerId (_id (closure w))) /\
  getAttribute el "role" (menuTrigger options el w) =
    Some (default "button" (getAttribute el "role" w)) /\
  getAttribute el "aria-controls" (menuTrigger options el w) =
    Some (menuId (_id (closure w))) /\
  getAttribute el "aria-expanded" (menuTrigger options el w) = Some "false" /\
  getAttribute el "aria-haspopup" (menuTrigger options el w) =
    Some (default "menu" (type options)) /\
  _triggerEl (closure (menuTrigger options el w)) = Some el.
Proof.
  unfold menuTrigger, hasAttribute.
  rewrite (getAttribute_set_ne el el "id" "role") by congruence.
  destruct (getAttribute el "role" w) as [r|] eqn:Hr; simpl;
    unfold getAttribute in *; simpl; simplify_map_eq; done.
Qed.

Lemma menu_attributes (options : AriaMenuOptions) (el : Element) (w : World) :
  getAttribute el "id" (menu options el w) = Some (menuId (_id (closure w))) /\
  getAttribute el "role" (menu options el w) = Some "menu" /\
  getAttribute el "tabindex" (menu options el w) = Some "-1" /\
  getAttribute el "aria-hidden" (menu options el w) = Some "true" /\
  getAttribute el "aria-describedby" (menu options el w) =
    Some (triggerId (_id (closure w))) /\
  getStyle el "display" (menu options el w) = Some "none" /\
  getStyle el "pointer-events" (menu options el w) = Some "none" /\
  _menuEl (closure (menu options el w)) = Some el.
Proof.
  unfold menu.
  match goal with
  | |- context [onActiveMenu options el ?c ?x] =>
      rewrite (onActiveMenu_hidden options el c x)
  end.
  - destruct (noOutSideClick options), (portal options), (noPlacement options);
      unfold getAttribute, getStyle; simpl; simplify_map_eq; done.
  - destruct (portal options), (noPlacement options); reflexivity.
  - unfold getAttribute; simpl.
    destruct (portal options), (noPlacement options); simpl; simplify_map_eq; done.
Qed.

Lemma menu_other_elements (options : AriaMenuOptions) (el other : Element)
    (name : string) (w : World) :
  other <> el ->
  getAttribute other name (menu options el w) = getAttribute other name w.
Proof.
  intros Hne. unfold menu.
  match goal with
  | |- context [onActiveMenu options el ?c ?x] =>
      rewrite (onActiveMenu_hidden options el c x)
  end.
  - destruct (noOutSideClick options), (portal options), (noPlacement options);
      unfold getAttribute; simpl;
      rewrite !lookup_insert_ne by congruence; reflexivity.
  - destruct (portal options), (noPlacement options); reflexivity.
  - unfold getAttribute; simpl.
    destruct (portal options), (noPlacement options); simpl; simplify_map_eq; done.
Qed.

Lemma menu_keeps_id (options : AriaMenuOptions) (el : Element) (w : World) :
  _id (closure (menu options el w)) = _id (closure w) /\
  _triggerEl (closure (menu options el w)) = _triggerEl (closure w).
Proof.
  unfold menu.
  match goal with
  | |- context [onActiveMenu options el ?c ?x] =>
      rewrite (onActiveMenu_hidden options el c x)
  end.
  - destruct (noOutSideClick options), (portal options), (noPlacement options);
      split; reflexivity.
  - destruct (portal options), (noPlacement options); reflexivity.
  - unfold getAttribute; simpl.
    destruct (portal options), (noPlacement options); simpl; simplify_map_eq; done.
Qed.

(** C5.  [menuTrigger(el)] gives the trigger its id, the role [button]
    unless it has a role, [aria-controls] with the id of the menu,
    [aria-expanded="false"] and [aria-haspopup] with the configured type or
    [menu].  [menu(el)] gives the menu element the id the trigger points
    to, the role [menu], [tabindex="-1"], [aria-hidden="true"],
    [aria-describedby] with the id of the trigger, and the styles
    [display: none] and [pointer-events: none]; it leaves the attributes of
    other elements alone.  The ids are unique: trigger and menu ids never
    coincide, ids of different numbers differ, and every
    [createAriaMenu] takes a new number. *)
Theorem attach_sets_aria_attributes (options : AriaMenuOptions) (el : Element)
    (w : World) :
  (getAttribute el "id" (menuTrigger options el w) = Some (triggerId (_id (closure w))) /\
   getAttribute el "role" (menuTrigger options el w) =
     Some (default "button" (getAttribute el "role" w)) /\
   getAttribute el "aria-controls" (menuTrigger options el w) =
     Some (menuId (_id (closure w))) /\
   getAttribute el "aria-expanded" (menuTrigger options el w) = Some "false" /\
   getAttribute el "aria-haspopup" (menuTrigger options el w) =
     Some (default "menu" (type options)) /\
   _triggerEl (closure (menuTrigger options el w)) = Some el) /\
  (getAttribute el "id" (menu options el w) = Some (menuId (_id (closure w))) /\
   getAttribute el "role" (menu options el w) = Some "menu" /\
   getAttribute el "tabindex" (menu options el w) = Some "-1" /\
   getAttribute el "aria-hidden" (menu options el w) = Some "true" /\
   getAttribute el "aria-describedby" (menu options el w) =
     Some (triggerId (_id (closure w))) /\
   getStyle el "display" (menu options el w) = Some "none" /\
   getStyle el "pointer-events" (menu options el w) = Some "none" /\
   _menuEl (closure (menu options el w)) = Some el) /\
  (forall other name,
     other <> el ->
     getAttribute other name (menu options el w) = getAttribute other name w) /\
  (_id (closure (menuTrigger options el w)) = _id (closure w) /\
   _id (closure (menu options el w)) = _id (closure w)) /\
  (forall n m, triggerId n <> menuId m) /\
  (forall n m, n <> m -> triggerId n <> triggerId m /\ menuId n <> menuId m) /\
  (_id (closure (createAriaMenu options w)) = S (id w) /\
   id (createAriaMenu options w) = S (id w) /\
   id (menuTrigger options el w) = id w /\
   id (menu options el w) = id w).
Proof.
  split; [apply menuTrigger_attributes|].
  split; [apply menu_attributes|].
  split; [intros; by apply menu_other_elements|].
  split.
  { split; [|apply menu_keeps_id].
    unfold menuTrigger. destruct (hasAttribute _ _ _); reflexivity. }
  split; [apply triggerId_menuId|].
  split.
  { intros n m Hne. split; intros H; apply Hne;
      [by apply triggerId_inj|by apply menuId_inj]. }
  split; [reflexivity|]. split; [reflexivity|].
  split.
  - unfold menuTrigger. destruct (hasAttribute _ _ _); reflexivity.
  - unfold menu.
    match goal with
    | |- context [onActiveMenu options el ?c ?x] =>
        rewrite (onActiveMenu_hidden options el c x)
    end.
    + destruct (noOutSideClick options), (portal options), (noPlacement options);
        reflexivity.
    + destruct (portal options), (noPlacement options); reflexivity.
    + unfold getAttribute; simpl.
      destruct (portal options), (noPlacement options); simpl; simplify_map_eq; done.
Qed.

(** A trigger (element 1, a link with a role of its own) and a menu (element
    2) attached to the first menu of a page. *)
Example attach_first_menu :
  let w := setAttribute 1 "role" "link" (createAriaMenu defaults emptyPage) in
  let w' := menu defaults 2 (menuTrigger defaults 1 w) in
  map_to_list (attributes (doc w')) =
    [(2, "id", "aria-menu-1"); (2, "aria-describedby", "aria-menu-trigger-1");
     (2, "aria-hidden", "true"); (2, "role", "menu"); (2, "tabindex", "-1");
     (1, "id", "aria-menu-trigger-1"); (1, "aria-controls", "aria-menu-1");
     (1, "aria-expanded", "false"); (1, "aria-haspopup", "menu");
     (1, "role", "link")] /\
  tasks w' = [MenuMounted 2].
Proof. vm_compute. split; reflexivity. Qed.

(** ** Focus *)

(** Several disposables are added to the bin of the open menu. *)
Definition extendOpen (extra : list Disposable) (w : World) : World :=
  withClosure (fun c => setOpenDisposal (_openDisposal c ++ extra) c) w.

Lemma extendOpen_app (a b : list Disposable) (w : World) :
  extendOpen b (extendOpen a w) = extendOpen (a ++ b) w.
Proof. unfold extendOpen, withClosure, setOpenDisposal. simpl. by rewrite app_assoc. Qed.

Lemma extendOpen_nil (w : World) : extendOpen [] w = w.
Proof. open_world w. unfold extendOpen, withClosure, setOpenDisposal. simpl. by rewrite app_nil_r. Qed.

Lemma addOpenDisposal_extend (d : Disposable) (w : World) :
  addOpenDisposal d w = extendOpen [d] w.
Proof. reflexivity. Qed.

Definition closeListeners (l : list Element) : list Disposable :=
  flat_map (fun closeEl => [CloseOnSelect closeEl "keydown";
                            CloseOnSelect closeEl "pointerup"]) l.

Lemma fold_close (l : list Element) (w : World) :
  fold_left
    (fun w closeEl =>
       addOpenDisposal (CloseOnSelect closeEl "pointerup")
         (addOpenDisposal (CloseOnSelect closeEl "keydown") w)) l w =
  extendOpen (closeListeners l) w.
Proof.
  revert w. induction l as [|x l IH]; intros w; simpl.
  - symmetry. apply extendOpen_nil.
  - rewrite IH, !addOpenDisposal_extend, !extendOpen_app. reflexivity.
Qed.

Lemma showAborts_ext (options : AriaMenuOptions) (w w' : World) :
  _menuEl (closure w') = _menuEl (closure w) ->
  closeTargets (doc w') = closeTargets (doc w) ->
  showAborts options w' = showAborts options w.
Proof. intros Hm Hc. unfold showAborts, querySelectorAll. by rewrite Hm, Hc. Qed.

(** [closeOnSelect] throws exactly when the show callback is said to abort;
    otherwise it adds the listeners of the close targets. *)
Lemma closeOnSelect_cases (options : AriaMenuOptions) (w : World) :
  (showAborts options w = true /\ closeOnSelect options w = None) \/
  (showAborts options w = false /\
   exists l, closeOnSelect options w = Some (extendOpen (closeListeners l) w)).
Proof.
  unfold showAborts, closeOnSelect.
  destruct (_menuEl (closure w));
    [|right; split; [reflexivity|]; exists []; by rewrite extendOpen_nil].
  destruct (closeSelectors options) as [close|];
    [|right; split; [reflexivity|]; exists []; by rewrite extendOpen_nil].
  destruct (querySelectorAll _ w) as [l|].
  - right. split; [by rewrite bool_decide_eq_true_2|].
    exists l. by rewrite fold_close.
  - left. split; [|reflexivity].
    rewrite bool_decide_eq_false_2; [reflexivity|]. by intros [x Hx].
Qed.

(** The show callback before and after [closeOnSelect]. *)
Definition shownStart (options : AriaMenuOptions) (w : World) : World :=
  let w := if noPlacement options then w else addOpenDisposal WatchPosition w in
  if noOutSideClick options then w
  else addOpenDisposal (Listener Body "pointerup" Close) w.

Definition shownRest (options : AriaMenuOptions) (event : option Event) (w : World)
    : World :=
  let w := closeSubmenuOnPointerLeave options w in
  let w := match _menuEl (closure w) with
           | Some m =>
               let w := setStyle m "pointer-events" "" w in
               let w := dispatchEvent m "aria-open" w in
               if isKeyboardEvent event
               then addOpenDisposal (FocusTrap m) (focus m w)
               else w
           | None => w
           end in
  setActiveMenu (_menuEl (closure w)) w.

Lemma shown_cases (options : AriaMenuOptions) (event : option Event) (w : World) :
  (showAborts options w = true /\ shown options event w = shownStart options w) \/
  (showAborts options w = false /\
   exists l,
     shown options event w =
     shownRest options event (extendOpen (closeListeners l) (shownStart options w))).
Proof.
  assert (Ha : showAborts options (shownStart options w) = showAborts options w).
  { apply showAborts_ext; unfold shownStart;
      by destruct (noPlacement options), (noOutSideClick options). }
  change (shown options event w) with
    (match closeOnSelect options (shownStart options w) with
     | None => shownStart options w
     | Some w' => shownRest options event w'
     end).
  destruct (closeOnSelect_cases options (shownStart options w))
    as [[Hb ->]|[Hb [l ->]]]; rewrite Ha in Hb; eauto.
Qed.

(** Takes the show callback apart. *)
Ltac open_shown :=
  unfold shownStart, shownRest, closeSubmenuOnPointerLeave, extendOpen; simpl.

(** Opened by a keyboard event, the menu element takes the focus and the
    focus trap is installed on it. *)
Lemma shown_keyboard (options : AriaMenuOptions) (event : option Event)
    (m : Element) (w : World) :
  _menuEl (closure w) = Some m ->
  showAborts options w = false ->
  isKeyboardEvent event = true ->
  activeElement (doc (shown options event w)) = Some m /\
  trapInstalled (shown options event w) = true /\
  getStyle m "pointer-events" (shown options event w) = Some "" /\
  activeMenu (shown options event w) = Some m.
Proof.
  intros Hm Ha Hk.
  destruct (shown_cases options event w) as [[Hb _]|[_ [l ->]]]; [congruence|].
  clear Ha. open_world w. subst me. open_shown.
  unfold trapInstalled, getStyle. rewrite Hk.
  destruct (noPlacement options), (noOutSideClick options), (submenu options); simpl;
    (split; [reflexivity|]); (split; [|split; [apply lookup_insert_eq|reflexivity]]);
    apply bool_decide_eq_true; rewrite !elem_of_app; right;
    by apply list_elem_of_singleton.
Qed.

(** When the show callback stops at [closeOnSelect], the focus stays where
    it is, nothing is dispatched, the store keeps its menu, and what is
    pending stays as it is. *)
Lemma shown_aborted (options : AriaMenuOptions) (event : option Event) (w : World) :
  showAborts options w = true ->
  doc (shown options event w) = doc w /\
  tasks (shown options event w) = tasks w /\
  activeMenu (shown options event w) = activeMenu w /\
  forall el, FocusTrap el ∈ _openDisposal (closure (shown options event w)) ->
             FocusTrap el ∈ _openDisposal (closure w).
Proof.
  intros Ha.
  destruct (shown_cases options event w) as [[_ ->]|[Hb _]]; [|congruence].
  clear Ha. open_world w. unfold shownStart.
  destruct (noPlacement options), (noOutSideClick options); simpl;
    repeat split; intros el Hel; try exact Hel;
    rewrite ?elem_of_app, ?list_elem_of_singleton in Hel;
    intuition discriminate.
Qed.

(** Opened otherwise, the focus stays where it is and no trap is added. *)
Lemma shown_not_keyboard (options : AriaMenuOptions) (event : option Event)
    (w : World) :
  isKeyboardEvent event = false ->
  activeElement (doc (shown options event w)) = activeElement (doc w) /\
  forall el, FocusTrap el ∈ _openDisposal (closure (shown options event w)) ->
             FocusTrap el ∈ _openDisposal (closure w).
Proof.
  intros Hk.
  assert (Hc : forall el l, FocusTrap el ∈ closeListeners l -> False).
  { intros el l. induction l as [|x l IH]; simpl; [by rewrite elem_of_nil|].
    rewrite !elem_of_cons. intros [H|[H|H]]; [discriminate H|discriminate H|auto]. }
  destruct (shown_cases options event w) as [[_ ->]|[_ [l ->]]];
    open_world w; open_shown; rewrite ?Hk;
    destruct (noPlacement options), (noOutSideClick options),
      (submenu options), me; simpl;
    (split; [reflexivity|]); intros el Hel; try exact Hel;
    rewrite ?elem_of_app, ?elem_of_cons, ?elem_of_nil in Hel;
    intuition (try discriminate; try (exfalso; eauto)).
Qed.

(** The hide callback for a keyboard event: the bin of the open menu is
    emptied, and with it the focus trap; the trigger takes the focus. *)
Lemma hidden_keyboard (event : option Event)
    (t : Element) (w : World) :
  _triggerEl (closure w) = Some t ->
  isKeyboardEvent event = true ->
  activeElement (doc (hidden event w)) = Some t /\
  _openDisposal (closure (hidden event w)) = [] /\
  trapInstalled (hidden event w) = false.
Proof.
  intros Ht Hk. open_world w. subst tr.
  unfold hidden, disposeOpen, trapInstalled. rewrite Hk. simpl.
  destruct (bool_decide (ClearSubmenuTimeout ∈ od)), me as [m|]; simpl;
    repeat match goal with
           | |- context [bool_decide (?a = ?b)] => destruct (bool_decide (a = b))
           end; simpl; repeat split; try reflexivity;
    apply bool_decide_eq_false, not_elem_of_nil.
Qed.

(** The Escape key, while the trap is installed on an open menu. *)
Lemma escape_closes (options : AriaMenuOptions) (e : Event) (m t : Element)
    (w : World) :
  _menuEl (closure w) = Some m ->
  _triggerEl (closure w) = Some t ->
  trapInstalled w = true ->
  isOpen w = true ->
  isOpen (escape options e w) = false /\
  getAttribute m "aria-hidden" (escape options e w) = Some "true" /\
  getAttribute t "aria-expanded" (escape options e w) = Some "false" /\
  tasks (escape options e w) = tasks w ++ [SetIsMenuOpen false; HideCallback (Some e)] /\
  _triggerEl (closure (escape options e w)) = Some t.
Proof.
  intros Hm Ht Htrap Hopen. unfold escape. rewrite Htrap.
  unfold isOpen in *. rewrite onChange_keeps_menuEl, Hm in *.
  apply bool_decide_eq_true in Hopen.
  unfold onChange.
  assert (Hg : alreadyThere false (stopPropagation (Some e) w) = false).
  { rewrite alreadyThere_stopPropagation. unfold alreadyThere. rewrite Hm.
    apply bool_decide_eq_false. rewrite Hopen. discriminate. }
  rewrite Hg. clear Hg Htrap.
  open_world w. subst me tr. unfold getAttribute in *; simpl in *.
  destruct (preventScroll options); simpl;
    (split; [apply bool_decide_eq_false; simplify_map_eq; discriminate|]);
    (split; [by simplify_map_eq|]); (split; [by simplify_map_eq|]);
    (split; [by rewrite <- app_assoc|reflexivity]).
Qed.

Lemma shown_keeps (options : AriaMenuOptions) (event : option Event) (w : World) :
  attributes (doc (shown options event w)) = attributes (doc w) /\
  _menuEl (closure (shown options event w)) = _menuEl (closure w) /\
  _triggerEl (closure (shown options event w)) = _triggerEl (closure w).
Proof.
  destruct (shown_cases options event w) as [[_ ->]|[_ [l ->]]];
    open_world w; open_shown;
    destruct (noPlacement options), (noOutSideClick options),
      (submenu options), me, (isKeyboardEvent event); simpl; auto.
Qed.

Lemma hidden_keeps (event : option Event) (w : World) :
  attributes (doc (hidden event w)) = attributes (doc w) /\
  _menuEl (closure (hidden event w)) = _menuEl (closure w).
Proof.
  open_world w. unfold hidden, disposeOpen. simpl.
  destruct (bool_decide (ClearSubmenuTimeout ∈ od)), (isKeyboardEvent event),
    tr, me; simpl;
    repeat match goal with
           | |- context [bool_decide (?a = ?b)] => destruct (bool_decide (a = b))
           end; auto.
Qed.

(** Opening a menu that is not open: the attribute changes at once, the
    rest is left to the two callbacks. *)
Lemma openMenu_closed (options : AriaMenuOptions) (event : option Event)
    (m : Element) (w : World) :
  _menuEl (closure w) = Some m ->
  isOpen w = false ->
  isOpen (openMenu options event w) = true /\
  tasks (openMenu options event w) =
    tasks w ++ [SetIsMenuOpen true; ShowCallback event] /\
  _menuEl (closure (openMenu options event w)) = Some m.
Proof.
  intros Hm Hopen. unfold openMenu, onChange.
  assert (Hg : alreadyThere true (stopPropagation event w) = false).
  { rewrite alreadyThere_stopPropagation. unfold alreadyThere, isOpen in *.
    by rewrite Hm in *. }
  rewrite Hg. clear Hg Hopen. unfold isOpen.
  open_world w. subst me.
  destruct event, tr, (preventScroll options); simpl;
    (split; [apply bool_decide_eq_true, lookup_insert_eq|]);
    (split; [by rewrite <- app_assoc|reflexivity]).
Qed.

Lemma onChange_keeps_closeTargets (options : AriaMenuOptions) (event : option Event)
    (force : option bool) (w : World) :
  closeTargets (doc (onChange options event force w)) = closeTargets (doc w).
Proof.
  unfold onChange.
  destruct (alreadyThere _ _); [by destruct event|].
  open_world w.
  destruct event, force as [[]|], io, tr, me, (preventScroll options);
    reflexivity.
Qed.

Lemma runNext_cons (options : AriaMenuOptions) (t : Task) (rest : list Task)
    (w : World) :
  tasks w = t :: rest ->
  runNext options w = perform options t (withTasks (fun _ => rest) w).
Proof. intros H. unfold runNext. by rewrite H. Qed.

(** C4, as the code has it.  When the menu is opened by a keyboard event and
    the show callback gets past [closeOnSelect] (the close selectors, if
    there are any, are taken by [querySelectorAll]), the show callback gives
    the focus to the menu element and installs the focus trap on it; from a
    closed menu with nothing else waiting, [openMenu] with a keyboard event
    and the two callbacks it leaves end in an open menu that has the focus
    and the trap.  On the Escape key the trap calls
    [onChange(event, false)]: the menu is hidden and the trigger collapsed
    at once, and the hide callback removes the trap and gives the focus to
    the trigger. *)
Theorem keyboard_open_traps_focus (options : AriaMenuOptions) (w : World)
    (m t : Element) (e : Event)
    (Hm : _menuEl (closure w) = Some m)
    (Ht : _triggerEl (closure w) = Some t)
    (Hk : isKeyboardEvent (Some e) = true) :
  (showAborts options w = false ->
   activeElement (doc (perform options (ShowCallback (Some e)) w)) = Some m /\
   trapInstalled (perform options (ShowCallback (Some e)) w) = true) /\
  (showAborts options w = false -> tasks w = [] -> isOpen w = false ->
   isOpen (runNext options (runNext options (openMenu options (Some e) w))) = true /\
   trapInstalled (runNext options (runNext options (openMenu options (Some e) w))) = true /\
   activeElement (doc (runNext options (runNext options (openMenu options (Some e) w))))
     = Some m) /\
  (trapInstalled w = true -> isOpen w = true ->
   isOpen (escape options e w) = false /\
   getAttribute t "aria-expanded" (escape options e w) = Some "false" /\
   tasks (escape options e w) = tasks w ++ [SetIsMenuOpen false; HideCallback (Some e)]) /\
  (activeElement (doc (perform options (HideCallback (Some e)) w)) = Some t /\
   trapInstalled (perform options (HideCallback (Some e)) w) = false) /\
  (tasks w = [] -> trapInstalled w = true -> isOpen w = true ->
   isOpen (runNext options (runNext options (escape options e w))) = false /\
   trapInstalled (runNext options (runNext options (escape options e w))) = false /\
   activeElement (doc (runNext options (runNext options (escape options e w))))
     = Some t).
Proof.
  split.
  { intros Hs. simpl.
    pose proof (shown_keyboard options (Some e) m w Hm Hs Hk). tauto. }
  split.
  { intros Hs Hts Hclosed.
    destruct (openMenu_closed options (Some e) m w Hm Hclosed) as (Ho & Hq & Hm').
    rewrite Hts in Hq. simpl in Hq.
    rewrite (runNext_cons options _ _ _ Hq). simpl perform.
    rewrite (runNext_cons options (ShowCallback (Some e)) []) by reflexivity.
    simpl perform.
    match goal with |- context [shown options (Some e) ?x] => set (w2 := x) end.
    assert (Hm2 : _menuEl (closure w2) = Some m) by exact Hm'.
    assert (Hs2 : showAborts options w2 = false).
    { rewrite <- Hs. apply showAborts_ext; [by rewrite Hm2, Hm|].
      apply (onChange_keeps_closeTargets options (Some e) (Some true) w). }
    destruct (shown_keyboard options (Some e) m w2 Hm2 Hs2 Hk) as (Hf & Htr & _ & _).
    destruct (shown_keeps options (Some e) w2) as (Hat & Hme & _).
    repeat split; try assumption.
    unfold isOpen in *. rewrite Hme, Hm2. rewrite Hm' in Ho.
    unfold getAttribute in *. rewrite Hat. exact Ho. }
  split.
  { intros Htrap Hopen.
    pose proof (escape_closes options e m t w Hm Ht Htrap Hopen). tauto. }
  split; [simpl; pose proof (hidden_keyboard (Some e) t w Ht Hk); tauto|].
  intros Hts Htrap Hopen.
  destruct (escape_closes options e m t w Hm Ht Htrap Hopen)
    as (Hc & Hh & _ & Hq & Ht').
  rewrite Hts in Hq. simpl in Hq.
  rewrite (runNext_cons options _ _ _ Hq). simpl perform.
  rewrite (runNext_cons options (HideCallback (Some e)) []) by reflexivity.
  simpl perform.
  match goal with |- context [hidden (Some e) ?x] => set (w2 := x) end.
  assert (Ht2 : _triggerEl (closure w2) = Some t) by exact Ht'.
  destruct (hidden_keyboard (Some e) t w2 Ht2 Hk) as (Hf & _ & Htr).
  destruct (hidden_keeps (Some e) w2) as (Hat & Hme).
  repeat split; try assumption.
  unfold isOpen in *. rewrite Hme. unfold getAttribute in *. rewrite Hat. exact Hc.
Qed.

(** ** Concrete pages *)

Definition arrowDown : Event :=
  {| eventId := 1; eventType := "keydown"; key := "ArrowDown" |}.
Definition pointerUp : Event :=
  {| eventId := 2; eventType := "pointerup"; key := "" |}.
Definition escapeKey : Event :=
  {| eventId := 3; eventType := "keydown"; key := "Escape" |}.

(** The first menu of a page, with element 1 as trigger and element 2 as
    menu, once the frame after [menu(el)] has passed. *)
Definition attached : World :=
  runAll defaults 4
    (menu defaults 2 (menuTrigger defaults 1 (createAriaMenu defaults emptyPage))).

(** The trigger is pressed with the pointer; all callbacks have run. *)
Definition openedByPointer : World :=
  runAll defaults 4 (fire defaults Press pointerUp attached).

(** [openMenu()] is called without an event; all callbacks have run. *)
Definition openedByCall : World :=
  runAll defaults 4 (openMenu defaults None attached).

(** ArrowDown is pressed on the trigger; all callbacks have run. *)
Definition openedByKeyboard : World :=
  runAll defaults 4 (fire defaults TriggerKeydown arrowDown attached).

Example opened_by_keyboard :
  isOpen openedByKeyboard = true /\
  _isMenuOpen (closure openedByKeyboard) = true /\
  activeElement (doc openedByKeyboard) = Some 2 /\
  _openDisposal (closure openedByKeyboard) =
    [WatchPosition; Listener Body "pointerup" Close; FocusTrap 2] /\
  getAttribute 1 "aria-expanded" openedByKeyboard = Some "true" /\
  tasks openedByKeyboard = [].
Proof. vm_compute. repeat split. Qed.

Example escape_after_keyboard :
  let w := runAll defaults 4 (escape defaults escapeKey openedByKeyboard) in
  isOpen w = false /\ _isMenuOpen (closure w) = false /\
  activeElement (doc w) = Some 1 /\ _openDisposal (closure w) = [] /\
  getAttribute 1 "aria-expanded" w = Some "false" /\
  dispatched (doc w) = [(2, "aria-open"); (2, "aria-close")].
Proof. vm_compute. repeat split. Qed.

Lemma keyboard_open_traps_focus_witness :
  (isOpen (runNext defaults (runNext defaults (openMenu defaults (Some arrowDown) attached)))
     = true /\
   trapInstalled
     (runNext defaults (runNext defaults (openMenu defaults (Some arrowDown) attached)))
     = true /\
   activeElement
     (doc (runNext defaults (runNext defaults (openMenu defaults (Some arrowDown) attached))))
     = Some 2) /\
  isOpen (runNext defaults (runNext defaults (escape defaults escapeKey openedByKeyboard)))
    = false /\
  trapInstalled
    (runNext defaults (runNext defaults (escape defaults escapeKey openedByKeyboard)))
    = false /\
  activeElement
    (doc (runNext defaults (runNext defaults (escape defaults escapeKey openedByKeyboard))))
    = Some 1.
Proof.
  destruct (keyboard_open_traps_focus defaults attached 2 1 arrowDown
              eq_refl eq_refl eq_refl) as (_ & Hopen & _).
  destruct (keyboard_open_traps_focus defaults openedByKeyboard 2 1 escapeKey
              eq_refl eq_refl eq_refl) as (_ & _ & _ & _ & H).
  split; [apply Hopen; reflexivity|apply H; reflexivity].
Defined.

(** Close selectors that are there but empty: [[].join(',')] is the empty
    string, which [querySelectorAll] does not take. *)
Definition emptyCloseSelectors : AriaMenuOptions :=
  {| type := None; portal := false; preventScroll := false; defaultOpen := false;
     hover := false; submenu := false; noOutSideClick := false;
     noPlacement := false; closeSelectors := Some [] |}.

(** With them the show callback stops at [closeOnSelect]: the menu opened
    with ArrowDown is shown as open, but it has neither the focus nor a
    trap, [aria-open] is not dispatched and the store does not know the
    menu. *)
Example show_callback_stops_at_empty_close_selectors :
  let w := runAll emptyCloseSelectors 4
             (fire emptyCloseSelectors TriggerKeydown arrowDown
                (runAll emptyCloseSelectors 4
                   (menu emptyCloseSelectors 2
                      (menuTrigger emptyCloseSelectors 1
                         (createAriaMenu emptyCloseSelectors emptyPage))))) in
  showAborts emptyCloseSelectors w = true /\
  isOpen w = true /\
  activeElement (doc w) = None /\
  trapInstalled w = false /\
  dispatched (doc w) = [] /\
  activeMenu w = None /\
  _openDisposal (closure w) = [WatchPosition; Listener Body "pointerup" Close].
Proof. vm_compute. repeat split. Qed.

(** C4 as it is written fails for a menu opened without a keyboard event,
    be it with the pointer or by a call of [openMenu()]: the menu is open,
    but the menu element has not taken the focus and no focus trap is
    installed. *)
Lemma pointer_open_has_no_focus_trap :
  (isOpen openedByPointer = true /\
   _isMenuOpen (closure openedByPointer) = true /\
   trapInstalled openedByPointer = false /\
   activeElement (doc openedByPointer) <> Some 2 /\
   (forall el, FocusTrap el ∉ _openDisposal (closure openedByPointer))) /\
  (isOpen openedByCall = true /\
   _isMenuOpen (closure openedByCall) = true /\
   trapInstalled openedByCall = false /\
   activeElement (doc openedByCall) <> Some 2 /\
   (forall el, FocusTrap el ∉ _openDisposal (closure openedByCall))).
Proof.
  split.
  - split; [reflexivity|]. split; [reflexivity|]. split; [reflexivity|].
    split; [discriminate|].
    intros el. change (_openDisposal (closure openedByPointer))
      with [WatchPosition; Listener Body "pointerup" Close].
    rewrite !elem_of_cons, elem_of_nil. intros [H|[H|[]]]; discriminate H.
  - split; [reflexivity|]. split; [reflexivity|]. split; [reflexivity|].
    split; [discriminate|].
    intros el. change (_openDisposal (closure openedByCall))
      with [WatchPosition; Listener Body "pointerup" Close].
    rewrite !elem_of_cons, elem_of_nil. intros [H|[H|[]]]; discriminate H.
Qed.

Lemma open_close_idempotent_witness :
  openMenu defaults None (openMenu defaults None attached) =
    openMenu defaults None attached /\
  closeMenu defaults (Some pointerUp) (closeMenu defaults (Some pointerUp) attached) =
    closeMenu defaults (Some pointerUp) attached.
Proof.
  destruct (open_close_idempotent defaults attached 2 eq_refl) as (_ & _ & _ & Ho & Hc).
  split; [apply Ho|apply Hc].
Defined.

(** ** Further facts about the menu *)

(** What can happen to an attached menu. *)
Inductive Interaction :=
| CallOpen (event : option Event)    (* openMenu(event) *)
| CallClose (event : option Event)   (* closeMenu(event) *)
| Fire (h : Handler) (e : Event)     (* one of its listeners gets an event *)
| Escape (e : Event)                 (* the Escape key, seen by the focus trap *)
| Callback.                          (* the oldest waiting callback runs *)

Definition interact (options : AriaMenuOptions) (w : World) (i : Interaction) : World :=
  match i with
  | CallOpen event => openMenu options event w
  | CallClose event => closeMenu options event w
  | Fire h e => fire options h e w
  | Escape e => escape options e w
  | Callback => runNext options w
  end.

Definition interactAll (options : AriaMenuOptions) (w : World)
    (interactions : list Interaction) : World :=
  fold_left (interact options) interactions w.

(** [true; false; true; ...]: hide, restore, hide, ... *)
Definition alternation (n : nat) : list bool := map Nat.odd (seq 1 n).

(** Trigger and menu say the same: [aria-expanded] of the trigger is the
    state [o], [aria-hidden] of the menu its negation; with [preventScroll]
    the scrollbar was hidden and restored in turns and is hidden exactly
    when [o] holds ([track] says whether the scrollbar is looked at). *)
Definition inSync (track : bool) (options : AriaMenuOptions) (t m : Element)
    (w : World) : Prop :=
  _triggerEl (closure w) = Some t /\
  _menuEl (closure w) = Some m /\
  exists o : bool,
    getAttribute t "aria-expanded" w = Some (ariaBool o) /\
    getAttribute m "aria-hidden" w = Some (ariaBool (negb o)) /\
    (track = true -> preventScroll options = true ->
     scrollbar (doc w) = alternation (length (scrollbar (doc w))) /\
     o = Nat.odd (length (scrollbar (doc w)))).

(** Two worlds that agree on the elements, the attributes and the
    scrollbar. *)
Definition sameView (w w' : World) : Prop :=
  _triggerEl (closure w') = _triggerEl (closure w) /\
  _menuEl (closure w') = _menuEl (closure w) /\
  attributes (doc w') = attributes (doc w) /\
  scrollbar (doc w') = scrollbar (doc w).

Lemma inSync_sameView (track : bool) (options : AriaMenuOptions) (t m : Element)
    (w w' : World) :
  sameView w w' -> inSync track options t m w -> inSync track options t m w'.
Proof.
  intros (Ht & Hm & Ha & Hs) (Ht' & Hm' & o & He & Hh & Hsc).
  unfold inSync, getAttribute in *. rewrite Ht, Hm, Ha, Hs. eauto 8.
Qed.

Lemma alternation_S (n : nat) :
  alternation (S n) = alternation n ++ [negb (Nat.odd n)].
Proof.
  unfold alternation. rewrite seq_S, map_app. simpl.
  by rewrite Nat.odd_succ, <- Nat.negb_odd.
Qed.

Lemma onChange_inSync (track : bool) (options : AriaMenuOptions) (t m : Element)
    (event : option Event) (force : option bool) (w : World) :
  inSync track options t m w -> inSync track options t m (onChange options event force w).
Proof.
  intros (Ht & Hm & o & He & Hh & Hsc). unfold onChange.
  destruct (alreadyThere _ (stopPropagation event w)) eqn:Hg.
  { apply (inSync_sameView track options t m w); [by destruct event|].
    unfold inSync; eauto 8. }
  rewrite alreadyThere_stopPropagation in Hg.
  set (open := match force with
               | Some f => f
               | None => negb (_isMenuOpen (closure (stopPropagation event w)))
               end) in *.
  assert (Hopen : open = negb o).
  { unfold alreadyThere in Hg. rewrite Hm, Hh in Hg.
    apply bool_decide_eq_false in Hg. destruct open, o; simpl in *; congruence. }
  clearbody open. subst open.
  assert (Hw : _triggerEl (closure (stopPropagation event w)) = Some t /\
               _menuEl (closure (stopPropagation event w)) = Some m /\
               scrollbar (doc (stopPropagation event w)) = scrollbar (doc w))
    by (by destruct event).
  revert Hw. generalize (stopPropagation event w). intros w0 (Ht0 & Hm0 & Hs0).
  clear Hg He Hh Ht Hm.
  open_world w0. subst tr me sc.
  unfold inSync, getAttribute.
  destruct (preventScroll options) eqn:Hps, o; simpl;
    (split; [reflexivity|]); (split; [reflexivity|]);
    [exists false|exists true|exists false|exists true]; simpl;
    (split; [by simplify_map_eq|]); (split; [by simplify_map_eq|]);
    intros Htr Hp; try discriminate Hp;
    destruct (Hsc Htr eq_refl) as [Hal Ho];
    rewrite length_app, Nat.add_1_r, alternation_S, <- Hal, <- Ho; simpl;
    rewrite Nat.odd_succ, <- Nat.negb_odd, <- Ho; by split.
Qed.

Lemma shown_sameView (options : AriaMenuOptions) (event : option Event) (w : World) :
  sameView w (shown options event w).
Proof.
  unfold sameView.
  destruct (shown_cases options event w) as [[_ ->]|[_ [l ->]]];
    open_world w; open_shown;
    destruct (noPlacement options), (noOutSideClick options),
      (submenu options), me, (isKeyboardEvent event); simpl; auto.
Qed.

Lemma hidden_sameView (event : option Event) (w : World) :
  sameView w (hidden event w).
Proof.
  open_world w. unfold sameView, hidden, disposeOpen. simpl.
  destruct (bool_decide (ClearSubmenuTimeout ∈ od)), (isKeyboardEvent event),
    tr, me; simpl;
    repeat match goal with
           | |- context [bool_decide (?a = ?b)] => destruct (bool_decide (a = b))
           end; auto.
Qed.

Lemma perform_inSync (track : bool) (options : AriaMenuOptions) (t m : Element) (task : Task)
    (w : World) :
  inSync track options t m w -> inSync track options t m (perform options task w).
Proof.
  intros H. destruct task as [o|event|event|el|]; simpl.
  - by apply (inSync_sameView track options t m w).
  - apply (inSync_sameView track options t m w); [apply shown_sameView|exact H].
  - apply (inSync_sameView track options t m w); [apply hidden_sameView|exact H].
  - unfold mounted.
    destruct (findMenuAncestor _ _ _); destruct (defaultOpen options);
      try apply onChange_inSync;
      try (by apply (inSync_sameView track options t m w)); exact H.
  - destruct H as (Ht & Hm & H). rewrite Hm.
    by apply (inSync_sameView track options t m w).
Qed.

Lemma interact_inSync (track : bool) (options : AriaMenuOptions) (t m : Element)
    (i : Interaction) (w : World) :
  inSync track options t m w -> inSync track options t m (interact options w i).
Proof.
  intros H. destruct i as [event|event|h e|e|]; simpl.
  - by apply onChange_inSync.
  - by apply onChange_inSync.
  - destruct h; simpl; try (by apply onChange_inSync).
    + repeat match goal with
             | |- context [if ?c then _ else _] => destruct c
             end; try exact H; repeat apply onChange_inSync; exact H.
    + destruct (String.eqb _ _); [by apply onChange_inSync|exact H].
    + by apply (inSync_sameView track options t m w).
  - unfold escape. destruct (trapInstalled w); [by apply onChange_inSync|exact H].
  - unfold runNext. destruct (tasks w) as [|task rest]; [exact H|].
    apply perform_inSync. by apply (inSync_sameView track options t m w).
Qed.

Lemma interactAll_inSync (track : bool) (options : AriaMenuOptions) (t m : Element)
    (interactions : list Interaction) (w : World) :
  inSync track options t m w ->
  inSync track options t m (interactAll options w interactions).
Proof.
  revert w. induction interactions as [|i rest IH]; intros w H; [exact H|].
  simpl. apply IH, interact_inSync, H.
Qed.

(** Trigger and menu attached to a page: the starting point. *)
Lemma attached_inSync (track : bool) (options : AriaMenuOptions) (t m : Element)
    (w : World) :
  (track = true -> scrollbar (doc w) = []) ->
  inSync track options t m (menu options m (menuTrigger options t w)).
Proof.
  intros Hs.
  destruct (menuTrigger_attributes options t w) as (_ & _ & _ & He & _ & Ht).
  destruct (menu_attributes options m (menuTrigger options t w))
    as (_ & _ & _ & Hh & _ & _ & _ & Hm).
  destruct (menu_keeps_id options m (menuTrigger options t w)) as [_ Ht'].
  split; [by rewrite Ht'|]. split; [exact Hm|].
  exists false.
  split.
  { destruct (decide (t = m)) as [->|Hne];
      [|by rewrite menu_other_elements by exact Hne].
    unfold menu.
    match goal with
    | |- context [onActiveMenu options m ?c ?x] =>
        rewrite (onActiveMenu_hidden options m c x)
    end.
    - unfold menuTrigger.
      destruct (noOutSideClick options), (portal options), (noPlacement options),
        (hasAttribute _ _ _); unfold getAttribute; simpl; by simplify_map_eq.
    - destruct (portal options), (noPlacement options); reflexivity.
    - unfold getAttribute; simpl.
      destruct (portal options), (noPlacement options); simpl; simplify_map_eq; done. }
  split; [exact Hh|].
  intros Htr _.
  assert (Hsc : scrollbar (doc (menu options m (menuTrigger options t w))) = []).
  { unfold menu.
    match goal with
    | |- context [onActiveMenu options m ?c ?x] =>
        rewrite (onActiveMenu_hidden options m c x)
    end.
    - unfold menuTrigger.
      destruct (noOutSideClick options), (portal options), (noPlacement options),
        (hasAttribute _ _ _); simpl; exact (Hs Htr).
    - destruct (portal options), (noPlacement options); reflexivity.
    - unfold getAttribute; simpl.
      destruct (portal options), (noPlacement options); simpl; simplify_map_eq; done. }
  rewrite Hsc. by split.
Qed.

(** Whatever happens to an attached menu (calls of [openMenu] and
    [closeMenu], events at its listeners, the Escape key, callbacks that
    run), [aria-expanded] of the trigger and [aria-hidden] of the menu stay
    each other's negation. *)
Lemma expanded_and_hidden_agree (options : AriaMenuOptions) (t m : Element)
    (w : World) (interactions : list Interaction) :
  exists o : bool,
    getAttribute t "aria-expanded"
      (interactAll options (menu options m (menuTrigger options t w)) interactions)
      = Some (ariaBool o) /\
    getAttribute m "aria-hidden"
      (interactAll options (menu options m (menuTrigger options t w)) interactions)
      = Some (ariaBool (negb o)).
Proof.
  destruct (interactAll_inSync false options t m interactions _
              (attached_inSync false options t m w ltac:(discriminate)))
    as (_ & _ & o & He & Hh & _).
  eauto.
Qed.

(** With [preventScroll], the document scrollbar is hidden and restored in
    turns, starting with hidden, and it is hidden exactly while the menu is
    open: it is never hidden twice, and never left hidden by a closed
    menu. *)
Lemma scrollbar_follows_menu (options : AriaMenuOptions) (t m : Element)
    (w : World) (interactions : list Interaction) :
  preventScroll options = true ->
  scrollbar (doc w) = [] ->
  scrollbar (doc (interactAll options (menu options m (menuTrigger options t w))
                    interactions)) =
    alternation (length (scrollbar
                           (doc (interactAll options
                                   (menu options m (menuTrigger options t w))
                                   interactions)))) /\
  isOpen (interactAll options (menu options m (menuTrigger options t w)) interactions) =
    Nat.odd (length (scrollbar
                       (doc (interactAll options
                               (menu options m (menuTrigger options t w))
                               interactions)))).
Proof.
  intros Hps Hs.
  destruct (interactAll_inSync true options t m interactions _
              (attached_inSync true options t m w (fun _ => Hs)))
    as (_ & Hm & o & _ & Hh & Hsc).
  destruct (Hsc eq_refl Hps) as [Hal Ho].
  split; [exact Hal|].
  unfold isOpen. rewrite Hm, Hh, <- Ho. by destruct o.
Qed.

(** A page whose menu locks the scrollbar while it is open. *)
Definition scrollLocking : AriaMenuOptions :=
  {| type := None; portal := false; preventScroll := true; defaultOpen := false;
     hover := false; submenu := false; noOutSideClick := false;
     noPlacement := false; closeSelectors := None |}.

Lemma scrollbar_follows_menu_witness :
  scrollbar
    (doc (interactAll scrollLocking
            (menu scrollLocking 2
               (menuTrigger scrollLocking 1 (createAriaMenu scrollLocking emptyPage)))
            [Callback; Fire Press pointerUp; CallOpen None; Callback; Callback;
             Fire Close pointerUp; Callback; Fire Press arrowDown])) = [true; false; true].
Proof.
  destruct (scrollbar_follows_menu scrollLocking 1 2
              (createAriaMenu scrollLocking emptyPage)
              [Callback; Fire Press pointerUp; CallOpen None; Callback; Callback;
               Fire Close pointerUp; Callback; Fire Press arrowDown] eq_refl eq_refl) as [H _].
  exact H.
Defined.

(** The toggle of [onChange] reads [_isMenuOpen], which follows at the next
    animation frame. *)
Lemma onChange_toggle (options : AriaMenuOptions) (event : option Event) (w : World) :
  onChange options event None w =
  onChange options event (Some (negb (_isMenuOpen (closure w)))) w.
Proof. unfold onChange. by destruct event. Qed.

Lemma onChange_keeps_isMenuOpen (options : AriaMenuOptions) (event : option Event)
    (force : option bool) (w : World) :
  _isMenuOpen (closure (onChange options event force w)) = _isMenuOpen (closure w).
Proof.
  unfold onChange.
  destruct (alreadyThere _ _); [by destruct event|].
  open_world w.
  destruct event, force as [[]|], io, tr, me, (preventScroll options);
    reflexivity.
Qed.

(** Closing a menu that is open: the attribute changes at once, the rest is
    left to the two callbacks. *)
Lemma closeMenu_opened (options : AriaMenuOptions) (event : option Event)
    (m : Element) (w : World) :
  _menuEl (closure w) = Some m ->
  isOpen w = true ->
  isOpen (closeMenu options event w) = false /\
  tasks (closeMenu options event w) =
    tasks w ++ [SetIsMenuOpen false; HideCallback event].
Proof.
  intros Hm Hopen. unfold closeMenu, onChange.
  assert (Hg : alreadyThere false (stopPropagation event w) = false).
  { rewrite alreadyThere_stopPropagation. unfold alreadyThere, isOpen in *.
    rewrite Hm in *. apply bool_decide_eq_true in Hopen.
    apply bool_decide_eq_false. rewrite Hopen. discriminate. }
  rewrite Hg. clear Hg Hopen. unfold isOpen.
  open_world w. subst me. unfold getAttribute.
  destruct event, tr, (preventScroll options); simpl;
    (split; [apply bool_decide_eq_false; simplify_map_eq; discriminate|]);
    by rewrite <- app_assoc.
Qed.

(** Pressing the trigger of a closed menu opens it.  A second press before
    the next animation frame is ignored (it still reads the menu as closed
    and asks to open it again); after the frame a press closes the menu. *)
Lemma press_toggles_after_frame (options : AriaMenuOptions) (m : Element)
    (first second : Event) (w : World) :
  _menuEl (closure w) = Some m ->
  isOpen w = false ->
  _isMenuOpen (closure w) = false ->
  tasks w = [] ->
  isOpen (fire options Press first w) = true /\
  fire options Press second (fire options Press first w) =
    stopPropagation (Some second) (fire options Press first w) /\
  isOpen (fire options Press second (runNext options (fire options Press first w)))
    = false.
Proof.
  intros Hm Hclosed Hio Hts. simpl.
  rewrite (onChange_toggle options (Some first) w), Hio. simpl negb.
  destruct (openMenu_closed options (Some first) m w Hm Hclosed) as (Ho & Hq & Hm').
  unfold openMenu in *.
  split; [exact Ho|]. split.
  - rewrite onChange_toggle, onChange_keeps_isMenuOpen, Hio. simpl negb.
    by apply (onChange_twice options (Some first) (Some second) true w m).
  - rewrite Hts in Hq. simpl in Hq.
    rewrite (runNext_cons options _ _ _ Hq). simpl perform.
    match goal with |- context [onChange options (Some second) None ?x] => set (w1 := x) end.
    assert (Hm1 : _menuEl (closure w1) = Some m) by exact Hm'.
    assert (Ho1 : isOpen w1 = true) by exact Ho.
    rewrite (onChange_toggle options (Some second) w1).
    change (_isMenuOpen (closure w1)) with true. simpl negb.
    by destruct (closeMenu_opened options (Some second) m w1 Hm1 Ho1).
Qed.

Lemma press_toggles_after_frame_witness :
  isOpen (fire defaults Press pointerUp attached) = true /\
  fire defaults Press arrowDown (fire defaults Press pointerUp attached) =
    stopPropagation (Some arrowDown) (fire defaults Press pointerUp attached) /\
  isOpen (fire defaults Press arrowDown
            (runNext defaults (fire defaults Press pointerUp attached))) = false.
Proof. apply (press_toggles_after_frame defaults 2); reflexivity. Defined.

(** "Close when another menu is opened": when another menu becomes the
    active one, an open menu closes (without an event), unless the other
    menu is the menu itself or lies inside it. *)
Lemma other_menu_closes (options : AriaMenuOptions) (el other : Element) (w : World) :
  _menuEl (closure w) = Some el ->
  isOpen w = true ->
  (other <> el -> contains el other w = false ->
   isOpen (onActiveMenu options el (Some other) w) = false /\
   tasks (onActiveMenu options el (Some other) w) =
     tasks w ++ [SetIsMenuOpen false; HideCallback None]) /\
  (other = el \/ contains el other w = true ->
   onActiveMenu options el (Some other) w = w) /\
  onActiveMenu options el None w = w.
Proof.
  intros Hm Hopen. unfold onActiveMenu. split; [|split; [|reflexivity]].
  - intros Hne Hc. rewrite Hc.
    rewrite bool_decide_eq_false_2 by congruence. simpl.
    apply (closeMenu_opened options None el w Hm Hopen).
  - intros [->|Hc].
    + by rewrite bool_decide_eq_true_2.
    + rewrite Hc. by rewrite andb_false_r.
Qed.

(** A page with a menu (element 2) that contains a submenu (element 3), and
    another menu (element 9) elsewhere. *)
Definition nested : World :=
  withDoc (fun d => {| attributes := attributes d; styles := styles d;
                       parentElement := {[3 := 2]};
                       bodyChildren := bodyChildren d;
                       closeTargets := closeTargets d;
                       activeElement := activeElement d; stopped := stopped d;
                       dispatched := dispatched d; scrollbar := scrollbar d |})
    openedByPointer.

Lemma other_menu_closes_witness :
  isOpen (onActiveMenu defaults 2 (Some 9) nested) = false /\
  onActiveMenu defaults 2 (Some 3) nested = nested.
Proof.
  destruct (other_menu_closes defaults 2 9 nested eq_refl eq_refl) as (H & _ & _).
  destruct (other_menu_closes defaults 2 3 nested eq_refl eq_refl) as (_ & H' & _).
  split; [apply H; [discriminate|reflexivity]|apply H'; right; reflexivity].
Defined.

Lemma hidden_bin_and_tasks (event : option Event) (w : World) :
  _openDisposal (closure (hidden event w)) = [] /\
  tasks (hidden event w) =
    if bool_decide (ClearSubmenuTimeout ∈ _openDisposal (closure w))
    then List.filter (fun t => negb (bool_decide (t = SubmenuTimeout))) (tasks w)
    else tasks w.
Proof.
  open_world w. unfold hidden, disposeOpen. simpl.
  destruct (bool_decide (ClearSubmenuTimeout ∈ od)), (isKeyboardEvent event), tr, me;
    simpl;
    repeat match goal with
           | |- context [bool_decide (?a = ?b)] => destruct (bool_decide (a = b))
           end; by split.
Qed.

(** In a submenu, hiding the menu cancels the timer that the show callback
    started: the bin is empty afterwards and the timer is no longer
    waiting, so no [pointerleave] listener is added to a hidden menu.  A
    show callback that stops at [closeOnSelect] starts no timer, and none
    is waiting afterwards if none was before. *)
Lemma hide_cancels_submenu_timer (options : AriaMenuOptions)
    (shownBy hiddenBy : option Event) (w : World) :
  submenu options = true ->
  (showAborts options w = false \/ SubmenuTimeout ∉ tasks w ->
   SubmenuTimeout ∉ tasks (hidden hiddenBy (shown options shownBy w))) /\
  (showAborts options w = true -> tasks (shown options shownBy w) = tasks w) /\
  _openDisposal (closure (hidden hiddenBy (shown options shownBy w))) = [].
Proof.
  intros Hsub.
  destruct (hidden_bin_and_tasks hiddenBy (shown options shownBy w)) as [Hbin _].
  assert (Hf : forall l,
             SubmenuTimeout ∉
             List.filter (fun t => negb (bool_decide (t = SubmenuTimeout))) l).
  { intros l H. apply list_elem_of_In, filter_In in H as [_ H].
    by rewrite bool_decide_eq_true_2 in H. }
  split; [|split; [|exact Hbin]].
  - intros Hor. clear Hbin.
    destruct (shown_cases options shownBy w) as [[Ha ->]|[Ha [l ->]]];
      rewrite (proj2 (hidden_bin_and_tasks _ _)).
    + destruct Hor as [Hb|Hno]; [congruence|].
      case_bool_decide; [apply Hf|].
      unfold shownStart.
      by destruct (noPlacement options), (noOutSideClick options).
    + rewrite bool_decide_eq_true_2; [apply Hf|].
      open_world w. open_shown. rewrite Hsub.
      destruct (noPlacement options), (noOutSideClick options), me,
        (isKeyboardEvent shownBy); simpl;
        rewrite ?elem_of_app, !list_elem_of_singleton; auto 6.
  - intros Ha. by destruct (shown_aborted options shownBy w Ha) as (_ & -> & _).
Qed.

Definition asSubmenu : AriaMenuOptions :=
  {| type := None; portal := false; preventScroll := false; defaultOpen := false;
     hover := false; submenu := true; noOutSideClick := false;
     noPlacement := false; closeSelectors := None |}.

Lemma hide_cancels_submenu_timer_witness :
  tasks (shown asSubmenu None attached) = [SubmenuTimeout] /\
  (SubmenuTimeout ∉ tasks (hidden None (shown asSubmenu None attached))).
Proof.
  split; [reflexivity|].
  destruct (hide_cancels_submenu_timer asSubmenu None None attached eq_refl)
    as (H & _).
  apply H. by left.
Defined.

(** ** Keys on the trigger *)

(** The key that opens the menu from its trigger: [ArrowDown], or
    [ArrowRight] for a submenu. *)
Definition openingKey (options : AriaMenuOptions) : string :=
  if submenu options then "ArrowRight" else "ArrowDown".

Lemma fire_TriggerKeydown (options : AriaMenuOptions) (e : Event) (w : World) :
  fire options TriggerKeydown e w =
  if String.eqb (key e) (openingKey options) then openMenu options (Some e) w else w.
Proof. unfold openingKey. simpl. by destruct (submenu options). Qed.

(** A key pressed on the trigger: any key but the opening key of the menu's
    kind changes nothing at all; the opening key opens a closed menu and
    leaves the show callback with the keyboard event; and no key closes an
    open menu or leaves a callback for it. *)
Lemma trigger_keydown_only_opens (options : AriaMenuOptions) (m : Element)
    (e : Event) (w : World) :
  _menuEl (closure w) = Some m ->
  (key e <> openingKey options -> fire options TriggerKeydown e w = w) /\
  (key e = openingKey options -> isOpen w = false ->
   isOpen (fire options TriggerKeydown e w) = true /\
   tasks (fire options TriggerKeydown e w) =
     tasks w ++ [SetIsMenuOpen true; ShowCallback (Some e)]) /\
  (isOpen w = true ->
   isOpen (fire options TriggerKeydown e w) = true /\
   tasks (fire options TriggerKeydown e w) = tasks w).
Proof.
  intros Hm. rewrite fire_TriggerKeydown. split; [|split].
  - intros Hk. apply String.eqb_neq in Hk. by rewrite Hk.
  - intros Hk Hclosed. apply String.eqb_eq in Hk. rewrite Hk.
    destruct (openMenu_closed options (Some e) m w Hm Hclosed) as (Ho & Hq & _).
    by split.
  - intros Hopen. destruct (String.eqb _ _); [|by split].
    unfold openMenu.
    rewrite (onChange_guard options (Some e) (Some true) w).
    + split; [|reflexivity]. unfold isOpen in *. simpl. exact Hopen.
    + unfold requested, alreadyThere, isOpen in *. by rewrite Hm in *.
Qed.

Lemma trigger_keydown_only_opens_witness :
  fire defaults TriggerKeydown escapeKey attached = attached /\
  isOpen (fire defaults TriggerKeydown arrowDown attached) = true /\
  tasks (fire defaults TriggerKeydown arrowDown openedByPointer) = [].
Proof.
  destruct (trigger_keydown_only_opens defaults 2 escapeKey attached eq_refl)
    as (Hother & _ & _).
  destruct (trigger_keydown_only_opens defaults 2 arrowDown attached eq_refl)
    as (_ & Hopens & _).
  destruct (trigger_keydown_only_opens defaults 2 arrowDown openedByPointer eq_refl)
    as (_ & _ & Hstays).
  split; [apply Hother; discriminate|].
  split; [apply Hopens; reflexivity|].
  apply Hstays; reflexivity.
Defined.

(** ** The first frame of a menu that is open by default *)

Lemma onChange_keeps_closure (options : AriaMenuOptions) (event : option Event)
    (force : option bool) (w : World) :
  closure (onChange options event force w) = closure w /\
  id (onChange options event force w) = id w.
Proof.
  unfold onChange.
  destruct (alreadyThere _ _); [by destruct event|].
  open_world w.
  destruct event, force as [[]|], io, tr, me, (preventScroll options);
    split; reflexivity.
Qed.

Lemma menuTrigger_frame (options : AriaMenuOptions) (el : Element) (w : World) :
  tasks (menuTrigger options el w) = tasks w /\
  id (menuTrigger options el w) = id w /\
  _id (closure (menuTrigger options el w)) = _id (closure w) /\
  forall other name,
    other <> el ->
    getAttribute other name (menuTrigger options el w) = getAttribute other name w.
Proof.
  unfold menuTrigger.
  destruct (hasAttribute _ _ _); (split; [reflexivity|]); (split; [reflexivity|]);
    (split; [reflexivity|]); intros other name Hne; unfold getAttribute; simpl;
    rewrite !lookup_insert_ne by congruence; reflexivity.
Qed.

Lemma menu_frame (options : AriaMenuOptions) (el : Element) (w : World) :
  tasks (menu options el w) = tasks w ++ [MenuMounted el] /\
  id (menu options el w) = id w.
Proof.
  unfold menu.
  match goal with
  | |- context [onActiveMenu options el ?c ?x] =>
      rewrite (onActiveMenu_hidden options el c x)
  end.
  - destruct (noOutSideClick options), (portal options), (noPlacement options);
      split; reflexivity.
  - destruct (portal options), (noPlacement options); reflexivity.
  - unfold getAttribute; simpl.
    destruct (portal options), (noPlacement options); simpl; simplify_map_eq; done.
Qed.

(** With [defaultOpen], a menu is attached closed like any other; the
    animation frame that follows [menu(el)] opens it, without an event, and
    leaves the popper's show callback. *)
Lemma default_open_on_first_frame (options : AriaMenuOptions) (t m : Element)
    (w : World) :
  defaultOpen options = true ->
  tasks w = [] ->
  isOpen (menu options m (menuTrigger options t w)) = false /\
  tasks (menu options m (menuTrigger options t w)) = [MenuMounted m] /\
  isOpen (runNext options (menu options m (menuTrigger options t w))) = true /\
  tasks (runNext options (menu options m (menuTrigger options t w))) =
    [SetIsMenuOpen true; ShowCallback None].
Proof.
  intros Hdo Hts.
  destruct (menu_attributes options m (menuTrigger options t w))
    as (_ & _ & _ & Hh & _ & _ & _ & Hm).
  destruct (menu_frame options m (menuTrigger options t w)) as [Hq _].
  destruct (menuTrigger_frame options t w) as (Hq' & _).
  rewrite Hq', Hts, app_nil_l in Hq.
  assert (Hclosed : isOpen (menu options m (menuTrigger options t w)) = false).
  { unfold isOpen. rewrite Hm, Hh. by apply bool_decide_eq_false. }
  split; [exact Hclosed|]. split; [exact Hq|].
  rewrite (runNext_cons options _ _ _ Hq). simpl perform.
  revert Hm Hclosed. generalize (menu options m (menuTrigger options t w)).
  intros w1 Hm Hclosed. unfold mounted. rewrite Hdo.
  match goal with
  | |- context [onChange options None (Some true) ?x] => set (w2 := x)
  end.
  assert (H2 : _menuEl (closure w2) = Some m /\ isOpen w2 = false /\ tasks w2 = []).
  { subst w2. unfold isOpen in *.
    destruct (findMenuAncestor _ _ _); open_world w1; subst me; by repeat split. }
  destruct H2 as (Hm2 & Hc2 & Ht2).
  destruct (openMenu_closed options None m w2 Hm2 Hc2) as (Ho & Hq2 & _).
  rewrite Ht2 in Hq2. by split.
Qed.

Definition openByDefault : AriaMenuOptions :=
  {| type := None; portal := false; preventScroll := false; defaultOpen := true;
     hover := false; submenu := false; noOutSideClick := false;
     noPlacement := false; closeSelectors := None |}.

Lemma default_open_on_first_frame_witness :
  isOpen (runNext openByDefault
            (menu openByDefault 2
               (menuTrigger openByDefault 1 (createAriaMenu openByDefault emptyPage))))
    = true.
Proof.
  by destruct (default_open_on_first_frame openByDefault 1 2
                 (createAriaMenu openByDefault emptyPage) eq_refl eq_refl)
    as (_ & _ & H & _).
Defined.

(** ** The menu a submenu reports to *)

Lemma findMenuAncestor_sound (fuel : nat) (parent : option Element) (w : World)
    (p : Element) :
  findMenuAncestor fuel parent w = Some p -> getAttribute p "role" w = Some "menu".
Proof.
  revert parent. induction fuel as [|n IH]; intros parent; [discriminate|].
  destruct parent as [q|]; [|discriminate]. simpl.
  case_bool_decide as Hr; [|apply IH].
  by intros [= <-].
Qed.

(** The frame after [menu(el)] looks for the menu around the element: an
    [aria-close] listener is only ever put on an element with the role
    [menu]; when the parent of the element is a menu, it is put on that
    parent; and an element without a parent gets none. *)
Lemma close_listener_is_on_a_menu (options : AriaMenuOptions) (el : Element)
    (w : World) :
  (forall p,
     Listener (On p) "aria-close" Close ∈ menuDisposal (closure (mounted options el w)) ->
     Listener (On p) "aria-close" Close ∉ menuDisposal (closure w) ->
     getAttribute p "role" w = Some "menu") /\
  (forall p,
     parentElement (doc w) !! el = Some p ->
     getAttribute p "role" w = Some "menu" ->
     menuDisposal (closure (mounted options el w)) =
       menuDisposal (closure w) ++ [Listener (On p) "aria-close" Close]) /\
  (parentElement (doc w) !! el = None ->
   menuDisposal (closure (mounted options el w)) = menuDisposal (closure w)).
Proof.
  assert (Hmd : forall w',
             menuDisposal (closure (if defaultOpen options
                                    then onChange options None (Some true) w'
                                    else w')) = menuDisposal (closure w')).
  { intros w'. destruct (defaultOpen options); [|reflexivity].
    by destruct (onChange_keeps_closure options None (Some true) w') as [-> _]. }
  unfold mounted. split; [|split].
  - intros p. rewrite Hmd.
    destruct (findMenuAncestor _ _ _) as [q|] eqn:Hf; simpl; [|by intros].
    rewrite elem_of_app, list_elem_of_singleton. intros [Hin|Heq] Hnot; [done|].
    injection Heq as ->. by apply findMenuAncestor_sound in Hf.
  - intros p Hp Hr. rewrite Hmd, Hp. simpl.
    by rewrite bool_decide_eq_true_2.
  - intros Hp. by rewrite Hmd, Hp.
Qed.

Lemma close_listener_is_on_a_menu_witness :
  menuDisposal (closure (mounted defaults 3 nested)) =
    menuDisposal (closure nested) ++ [Listener (On 2) "aria-close" Close].
Proof.
  destruct (close_listener_is_on_a_menu defaults 3 nested) as (_ & H & _).
  apply H; reflexivity.
Defined.

(** ** The ids of two menus *)

(** [createAriaMenu(options)] and its two actions on a trigger and a menu
    element. *)
Definition attach (options : AriaMenuOptions) (t m : Element) (w : World) : World :=
  menu options m (menuTrigger options t (createAriaMenu options w)).

(** A page with two menus: the first is attached and used, then the second
    is attached. *)
Definition twoMenus (first second : AriaMenuOptions) (t m t' m' : Element)
    (w : World) (interactions : list Interaction) : World :=
  attach second t' m' (interactAll first (attach first t m w) interactions).

Lemma onChange_keeps_ids (options : AriaMenuOptions) (event : option Event)
    (force : option bool) (el : Element) (w : World) :
  getAttribute el "id" (onChange options event force w) = getAttribute el "id" w.
Proof.
  unfold onChange.
  destruct (alreadyThere _ _); [by destruct event|].
  open_world w. unfold getAttribute.
  destruct event, force as [[]|], io, tr, me, (preventScroll options); simpl;
    rewrite ?lookup_insert_ne by congruence; reflexivity.
Qed.

Lemma interact_keeps_ids (options : AriaMenuOptions) (action : Interaction)
    (el : Element) (w : World) :
  id (interact options w action) = id w /\
  getAttribute el "id" (interact options w action) = getAttribute el "id" w.
Proof.
  assert (Hch : forall event force w',
             id (onChange options event force w') = id w' /\
             getAttribute el "id" (onChange options event force w') =
               getAttribute el "id" w').
  { intros. split; [apply onChange_keeps_closure|apply onChange_keeps_ids]. }
  assert (Hsh : forall event w',
             id (shown options event w') = id w' /\
             getAttribute el "id" (shown options event w') = getAttribute el "id" w').
  { intros event w'. destruct (shown_sameView options event w') as (_ & _ & Ha & _).
    unfold getAttribute. rewrite Ha. split; [|reflexivity]. clear Ha.
    destruct (shown_cases options event w') as [[_ ->]|[_ [l ->]]];
      open_world w'; open_shown;
      destruct (noPlacement options), (noOutSideClick options),
        (submenu options), me, (isKeyboardEvent event); reflexivity. }
  assert (Hhi : forall event w',
             id (hidden event w') = id w' /\
             getAttribute el "id" (hidden event w') = getAttribute el "id" w').
  { intros event w'. destruct (hidden_sameView event w') as (_ & _ & Ha & _).
    unfold getAttribute. rewrite Ha. split; [|reflexivity].
    open_world w'. unfold hidden, disposeOpen. simpl.
    destruct (bool_decide (ClearSubmenuTimeout ∈ od)), (isKeyboardEvent event),
      tr, me; simpl;
      repeat match goal with
             | |- context [bool_decide (?a = ?b)] => destruct (bool_decide (a = b))
             end; reflexivity. }
  destruct action as [event|event|h e|e|]; unfold interact.
  - apply Hch.
  - apply Hch.
  - destruct h; try apply Hch.
    + rewrite fire_TriggerKeydown. destruct (String.eqb _ _); [apply Hch|by split].
    + unfold fire. destruct (String.eqb _ _); [apply Hch|by split].
    + by split.
  - unfold escape. destruct (trapInstalled w); [apply Hch|by split].
  - unfold runNext. destruct (tasks w) as [|task rest]; [by split|].
    assert (Hw : id (withTasks (fun _ => rest) w) = id w /\
                 getAttribute el "id" (withTasks (fun _ => rest) w) =
                   getAttribute el "id" w) by (by split).
    revert Hw. generalize (withTasks (fun _ => rest) w). intros w' [<- <-].
    destruct task as [o|event|event|x|]; unfold perform.
    + by split.
    + apply Hsh.
    + apply Hhi.
    + unfold mounted.
      destruct (defaultOpen options).
      * match goal with
        | |- context [onChange options ?ev ?f ?x] =>
            destruct (Hch ev f x) as [-> ->]
        end.
        destruct (findMenuAncestor _ _ _); by split.
      * destruct (findMenuAncestor _ _ _); by split.
    + destruct (_menuEl (closure w')); by split.
Qed.

Lemma interactAll_keeps_ids (options : AriaMenuOptions)
    (interactions : list Interaction) (el : Element) (w : World) :
  id (interactAll options w interactions) = id w /\
  getAttribute el "id" (interactAll options w interactions) = getAttribute el "id" w.
Proof.
  revert w. induction interactions as [|i rest IH]; intros w; [by split|].
  simpl. destruct (IH (interact options w i)) as [-> ->].
  apply interact_keeps_ids.
Qed.

Lemma attach_ids (options : AriaMenuOptions) (t m other : Element) (w : World) :
  t <> m ->
  id (attach options t m w) = S (id w) /\
  getAttribute t "id" (attach options t m w) = Some (triggerId (S (id w))) /\
  getAttribute m "id" (attach options t m w) = Some (menuId (S (id w))) /\
  (other <> t -> other <> m ->
   getAttribute other "id" (attach options t m w) = getAttribute other "id" w).
Proof.
  intros Hne. unfold attach.
  destruct (menuTrigger_frame options t (createAriaMenu options w))
    as (_ & Hid & Hcid & Hother).
  destruct (menu_frame options m (menuTrigger options t (createAriaMenu options w)))
    as [_ Hid'].
  destruct (menuTrigger_attributes options t (createAriaMenu options w))
    as (Ht & _).
  destruct (menu_attributes options m (menuTrigger options t (createAriaMenu options w)))
    as (Hm & _).
  split; [by rewrite Hid', Hid|].
  split; [by rewrite menu_other_elements|].
  split; [by rewrite Hm, Hcid|].
  intros Ht' Hm'. by rewrite menu_other_elements, Hother.
Qed.

(** Two menus of a page never share an id: whatever happened to the first
    menu before the second was attached, the two triggers and the two menu
    elements carry four different ids. *)
Lemma menus_have_different_ids (first second : AriaMenuOptions)
    (t m t' m' : Element) (w : World) (interactions : list Interaction) :
  NoDup [t; m; t'; m'] ->
  exists a b c d : string,
    getAttribute t "id" (twoMenus first second t m t' m' w interactions) = Some a /\
    getAttribute m "id" (twoMenus first second t m t' m' w interactions) = Some b /\
    getAttribute t' "id" (twoMenus first second t m t' m' w interactions) = Some c /\
    getAttribute m' "id" (twoMenus first second t m t' m' w interactions) = Some d /\
    NoDup [a; b; c; d].
Proof.
  intros Hnd.
  assert (Hne : t <> m /\ t <> t' /\ t <> m' /\ m <> t' /\ m <> m' /\ t' <> m').
  { rewrite !NoDup_cons, !elem_of_cons, !elem_of_nil in Hnd. intuition congruence. }
  destruct Hne as (H1 & H2 & H3 & H4 & H5 & H6).
  unfold twoMenus.
  destruct (attach_ids first t m t w H1) as (Hid1 & Ht1 & Hm1 & _).
  destruct (interactAll_keeps_ids first interactions t (attach first t m w))
    as [Hid2 Ht2].
  destruct (interactAll_keeps_ids first interactions m (attach first t m w))
    as [_ Hm2].
  set (w1 := interactAll first (attach first t m w) interactions) in *.
  destruct (attach_ids second t' m' t w1 H6) as (_ & Ht3 & Hm3 & Hto).
  destruct (attach_ids second t' m' m w1 H6) as (_ & _ & _ & Hmo).
  exists (triggerId (S (id w))), (menuId (S (id w))),
    (triggerId (S (S (id w)))), (menuId (S (S (id w)))).
  split; [by rewrite Hto, Ht2, Ht1|].
  split; [by rewrite Hmo, Hm2, Hm1|].
  split; [by rewrite Ht3, Hid2, Hid1|].
  split; [by rewrite Hm3, Hid2, Hid1|].
  rewrite !NoDup_cons, !elem_of_cons, !elem_of_nil.
  pose proof (triggerId_menuId (S (id w)) (S (id w))).
  pose proof (triggerId_menuId (S (id w)) (S (S (id w)))).
  pose proof (triggerId_menuId (S (S (id w))) (S (id w))).
  pose proof (triggerId_menuId (S (S (id w))) (S (S (id w)))).
  pose proof (triggerId_inj (S (id w)) (S (S (id w)))).
  pose proof (menuId_inj (S (id w)) (S (S (id w)))).
  repeat split; try apply NoDup_nil_2; intuition (try congruence; try lia).
Qed.

Lemma menus_have_different_ids_witness :
  map (fun el => getAttribute el "id"
                   (twoMenus defaults asSubmenu 1 2 3 4 emptyPage
                      [Fire Press pointerUp; Callback; Callback]))
      [1; 2; 3; 4] =
  [Some "aria-menu-trigger-1"; Some "aria-menu-1";
   Some "aria-menu-trigger-2"; Some "aria-menu-2"] /\
  exists a b c d : string,
    getAttribute 1 "id" (twoMenus defaults asSubmenu 1 2 3 4 emptyPage
                           [Fire Press pointerUp; Callback; Callback]) = Some a /\
    getAttribute 2 "id" (twoMenus defaults asSubmenu 1 2 3 4 emptyPage
                           [Fire Press pointerUp; Callback; Callback]) = Some b /\
    getAttribute 3 "id" (twoMenus defaults asSubmenu 1 2 3 4 emptyPage
                           [Fire Press pointerUp; Callback; Callback]) = Some c /\
    getAttribute 4 "id" (twoMenus defaults asSubmenu 1 2 3 4 emptyPage
                           [Fire Press pointerUp; Callback; Callback]) = Some d /\
    NoDup [a; b; c; d].
Proof.
  split; [reflexivity|].
  apply (menus_have_different_ids defaults asSubmenu 1 2 3 4). compute_done.
Defined.

(** ** Showing and hiding *)

Lemma shown_activates (options : AriaMenuOptions) (event : option Event)
    (m : Element) (w : World) :
  _menuEl (closure w) = Some m ->
  showAborts options w = false ->
  _menuEl (closure (shown options event w)) = Some m /\
  activeMenu (shown options event w) = Some m /\
  dispatched (doc (shown options event w)) = dispatched (doc w) ++ [(m, "aria-open")].
Proof.
  intros Hm Ha.
  destruct (shown_cases options event w) as [[Hb _]|[_ [l ->]]]; [congruence|].
  clear Ha. open_world w. subst me. open_shown.
  destruct (noPlacement options), (noOutSideClick options), (submenu options),
    (isKeyboardEvent event); simpl; by repeat split.
Qed.

Lemma hidden_takes_down (event : option Event) (m : Element) (w : World) :
  _menuEl (closure w) = Some m ->
  _openDisposal (closure (hidden event w)) = [] /\
  getStyle m "pointer-events" (hidden event w) = Some "none" /\
  dispatched (doc (hidden event w)) = dispatched (doc w) ++ [(m, "aria-close")] /\
  activeMenu (hidden event w) =
    if bool_decide (activeMenu w = Some m) then None else activeMenu w.
Proof.
  intros Hm. open_world w. subst me.
  unfold hidden, disposeOpen, getStyle. simpl.
  destruct (bool_decide (ClearSubmenuTimeout ∈ od)), (isKeyboardEvent event), tr;
    simpl; destruct (bool_decide (am = Some m)); simpl;
    repeat split; apply lookup_insert_eq.
Qed.

(** What the show callback sets up, the hide callback takes down.  The show
    callback, when it gets past [closeOnSelect], makes the menu the active
    one and dispatches [aria-open].  The hide callback of an attached menu
    empties the bin of the open menu, lets the menu element ignore the
    pointer and dispatches [aria-close]; it resets the store only when the
    menu is still the active one, so another menu that has become active
    since stays active.  When the hide callback runs right after the show
    callback, the store is reset and the page has seen [aria-open] followed
    by [aria-close]. *)
Lemma show_then_hide_cleans_up (options : AriaMenuOptions)
    (shownBy hiddenBy : option Event) (m : Element) (w : World) :
  _menuEl (closure w) = Some m ->
  (showAborts options w = false ->
   activeMenu (shown options shownBy w) = Some m /\
   dispatched (doc (shown options shownBy w)) =
     dispatched (doc w) ++ [(m, "aria-open")]) /\
  (_openDisposal (closure (hidden hiddenBy w)) = [] /\
   getStyle m "pointer-events" (hidden hiddenBy w) = Some "none" /\
   dispatched (doc (hidden hiddenBy w)) = dispatched (doc w) ++ [(m, "aria-close")] /\
   activeMenu (hidden hiddenBy w) =
     if bool_decide (activeMenu w = Some m) then None else activeMenu w) /\
  (showAborts options w = false ->
   _openDisposal (closure (hidden hiddenBy (shown options shownBy w))) = [] /\
   activeMenu (hidden hiddenBy (shown options shownBy w)) = None /\
   getStyle m "pointer-events" (hidden hiddenBy (shown options shownBy w)) =
     Some "none" /\
   dispatched (doc (hidden hiddenBy (shown options shownBy w))) =
     dispatched (doc w) ++ [(m, "aria-open"); (m, "aria-close")]).
Proof.
  intros Hm. split; [|split].
  - intros Ha. by destruct (shown_activates options shownBy m w Hm Ha) as (_ & ? & ?).
  - apply (hidden_takes_down hiddenBy m w Hm).
  - intros Ha.
    destruct (shown_activates options shownBy m w Hm Ha) as (Hm' & Hact & Hd).
    destruct (hidden_takes_down hiddenBy m _ Hm') as (Ho & Hs & Hd' & Hn).
    rewrite Hd', Hd, <- app_assoc, Hn, Hact.
    rewrite bool_decide_eq_true_2 by reflexivity. by repeat split.
Qed.

(** The menu of the attached page is shown, and another menu (element 9)
    becomes the active one before the hide callback runs. *)
Definition otherMenuActive : World :=
  setActiveMenu (Some 9) (shown defaults None attached).

Lemma show_then_hide_cleans_up_witness :
  activeMenu (shown defaults None attached) = Some 2 /\
  activeMenu (hidden None (shown defaults None attached)) = None /\
  dispatched (doc (hidden None (shown defaults None attached))) =
    [(2, "aria-open"); (2, "aria-close")] /\
  activeMenu (hidden None otherMenuActive) = Some 9.
Proof.
  destruct (show_then_hide_cleans_up defaults None None 2 attached eq_refl)
    as (Hshow & _ & Hboth).
  destruct (show_then_hide_cleans_up defaults None None 2 otherMenuActive eq_refl)
    as (_ & (_ & _ & _ & Hother) & _).
  destruct (Hshow eq_refl) as [Hact _].
  destruct (Hboth eq_refl) as (_ & Hnone & _ & Hd).
  split; [exact Hact|]. split; [exact Hnone|]. split; [exact Hd|exact Hother].
Defined.

End AriaMenu.
